(** * Match-and-snippet engine of the Ghost + Contentful search server

    A shallow embedding of [src/index.ts]: the text matcher, the snippet
    extractors, the rich-text flattener, the markup stripper and the
    filter/map pipelines of the search tools, followed by the properties
    the specification states about them.

    JavaScript strings are sequences of UTF-16 code units; [length],
    [indexOf], [includes] and [slice] all count code units.  Numbers that
    the code uses as indices are integers and are represented in [Z].
    [String.prototype.toLowerCase] is a platform function: the engine is
    developed for an arbitrary lowercasing function (a section variable),
    so that nothing below depends on how the platform folds case or on
    whether folding preserves the length of a string. *)

From Stdlib Require Import List ZArith NArith Bool Lia.
From Stdlib Require Import Strings.String Strings.Ascii.
Import ListNotations.

Open Scope Z_scope.

(** ** Platform strings *)

Definition code_unit := N.
Definition jsstring := list code_unit.

(** A string literal of the source text, as code units. *)
Definition lit (s : string) : jsstring :=
  List.map N_of_ascii (list_ascii_of_string s).

Module JS.

(** [s.length] *)
Definition length (s : jsstring) : Z := Z.of_nat (List.length s).

(** [a === b] on strings *)
Fixpoint eqb (a b : jsstring) : bool :=
  match a, b with
  | [], [] => true
  | x :: a', y :: b' => N.eqb x y && eqb a' b'
  | _, _ => false
  end.

(** [s.startsWith(q)]: [q] is an initial segment of [s]. *)
Fixpoint startsWith (s q : jsstring) {struct q} : bool :=
  match q, s with
  | [], _ => true
  | _ :: _, [] => false
  | y :: q', x :: s' => N.eqb x y && startsWith s' q'
  end.

(** [s.indexOf(q)]: the least index at which [q] occurs in [s], or [-1].
    [indexOf_from s q k] searches [s], whose first unit has index [k]. *)
Fixpoint indexOf_from (s q : jsstring) (k : Z) : Z :=
  if startsWith s q then k
  else match s with
       | [] => -1
       | _ :: s' => indexOf_from s' q (k + 1)
       end.

Definition indexOf (s q : jsstring) : Z := indexOf_from s q 0.

(** [s.includes(q)]: [q] occurs in [s] as a contiguous substring. *)
Fixpoint includes (s q : jsstring) : bool :=
  startsWith s q ||
  match s with
  | [] => false
  | _ :: s' => includes s' q
  end.

(** [s.slice(from, to)] for integer arguments: a negative argument counts
    from the end of the string, and both are clamped to [0, s.length]. *)
Definition relative_index (len i : Z) : Z :=
  if i <? 0 then Z.max (len + i) 0 else Z.min i len.

Definition slice (s : jsstring) (from to : Z) : jsstring :=
  let len := length s in
  let from' := relative_index len from in
  let to' := relative_index len to in
  firstn (Z.to_nat (to' - from')) (skipn (Z.to_nat from') s).

(** [parts.join(sep)] on an array of strings. *)
Fixpoint join (sep : jsstring) (parts : list jsstring) : jsstring :=
  match parts with
  | [] => []
  | [p] => p
  | p :: rest => p ++ sep ++ join sep rest
  end.

(** All the indices at which [q] occurs in [s], in increasing order;
    [occurrences_from s q k] lists them for [s] starting at index [k]. *)
Fixpoint occurrences_from (s q : jsstring) (k : Z) : list Z :=
  (if startsWith s q then [k] else []) ++
  match s with
  | [] => []
  | _ :: s' => occurrences_from s' q (k + 1)
  end.

Definition occurrences (s q : jsstring) : list Z := occurrences_from s q 0.

(** Lowercasing of the Basic Latin letters [A]-[Z]; it agrees with
    [toLowerCase] on every string of code units below 128. *)
Definition lower_unit (c : code_unit) : code_unit :=
  if (N.leb 65 c && N.leb c 90)%bool then (c + 32)%N else c.

Definition asciiToLowerCase (s : jsstring) : jsstring :=
  List.map lower_unit s.

End JS.

(** A value of type [string | undefined | null]. *)
Inductive jstext : Type :=
| undefined
| null
| str (s : jsstring).

(** [!text]: [undefined], [null] and the empty string are falsy. *)
Definition falsy (text : jstext) : bool :=
  match text with
  | undefined | null => true
  | str [] => true
  | str (_ :: _) => false
  end.

(** A string interpolated in a template literal. *)
Definition interpolate (text : jstext) : jsstring :=
  match text with
  | undefined => lit "undefined"
  | null => lit "null"
  | str s => s
  end.

Definition ellipsis : jsstring := lit "...".

(** [a || b] on values of type [string | null] (the snippet results):
    [null] and the empty string are falsy. *)
Definition or_else (a b : option jsstring) : option jsstring :=
  match a with
  | Some (_ :: _) => a
  | _ => b
  end.

(** ** Rich-text documents *)

(** A value found where a rich-text node is expected: [absent] stands for
    [undefined] and [null]; [object] carries the three properties the code
    reads, a property that is missing being [undefined].  [content] is
    [Some] exactly when [Array.isArray(node.content)]. *)
Inductive node : Type :=
| absent
| object (nodeType : jstext) (value : jstext) (content : option (list node)).

(** [node.nodeType === "text"] *)
Definition is_text (nodeType : jstext) : bool :=
  match nodeType with
  | str s => JS.eqb s (lit "text")
  | _ => false
  end.

(** [value || ""] *)
Definition or_empty (value : jstext) : jsstring :=
  match value with
  | str s => s
  | _ => []
  end.

(** [extractTextFromRichText], src/index.ts lines 87-94. *)
Fixpoint extractTextFromRichText (n : node) : jsstring :=
  match n with
  | absent => []
  | object nodeType value content =>
      if is_text nodeType then or_empty value
      else match content with
           | Some children =>
               JS.join (lit " ") (List.map extractTextFromRichText children)
           | None => []
           end
  end.

(** [wrapper?.json] for a field holding [{ json }] or [null]. *)
Definition json (wrapper : option node) : node :=
  match wrapper with
  | Some n => n
  | None => absent
  end.

(** ** Markup *)

Definition lt_sign : code_unit := 60%N.
Definition gt_sign : code_unit := 62%N.

(** [stripHtml], src/index.ts lines 58-60: every match of [<[^>]*>] is
    removed.  A [<] opens a match when a [>] follows somewhere; the match
    then runs to the first such [>].  [inTag] records that a match is open. *)
Fixpoint stripHtml_from (inTag : bool) (html : jsstring) : jsstring :=
  match html with
  | [] => []
  | c :: rest =>
      if inTag then
        stripHtml_from (negb (N.eqb c gt_sign)) rest
      else if (N.eqb c lt_sign && existsb (N.eqb gt_sign) rest)%bool then
        stripHtml_from true rest
      else c :: stripHtml_from false rest
  end.

Definition stripHtml (html : jsstring) : jsstring := stripHtml_from false html.

(** ** Records of the two backends *)

Module Tag.
Record t := mk { name : jstext }.
End Tag.

(** A Ghost post or page, [p] in tools 1 and 2. *)
Module Ghost.
Record t := mk {
  title : jstext;
  slug : jstext;
  excerpt : jstext;
  html : jstext;
  published_at : jstext;
  tags : option (list Tag.t)
}.
End Ghost.

Module PostResult.
Record t := mk {
  title : jstext;
  slug : jstext;
  url : jsstring;
  excerpt : jstext;
  published_at : jstext;
  tags : option (list jstext);
  matched_snippet : option jsstring
}.
End PostResult.

Module PageResult.
Record t := mk {
  title : jstext;
  slug : jstext;
  url : jsstring;
  matched_snippet : option jsstring
}.
End PageResult.

(** A Contentful learn page, [item] in tool 3. *)
Module LearnSection.
Record t := mk {
  title : jstext;
  url : jstext
}.
End LearnSection.

Module LearnPage.
Record t := mk {
  title : jstext;
  url : jstext;
  section : option LearnSection.t;
  subSection : jstext;
  metaTitle : jstext;
  metaDescription : jstext;
  content : option node
}.
End LearnPage.

Module LearnPageResult.
Record t := mk {
  title : jstext;
  url : jsstring;
  section : jstext;
  subSection : jstext;
  metaDescription : jstext;
  matched_snippet : option jsstring
}.
End LearnPageResult.

(** A Contentful case study, [item] in tool 4. *)
Module CaseStudy.
Record t := mk {
  name : jstext;
  slug : jstext;
  externalLink : jstext;
  overview : jstext;
  category : jstext;
  useCase : jstext;
  impact : jstext;
  quoteText : jstext;
  metaTitle : jstext;
  metaDescription : jstext;
  content : option node
}.
End CaseStudy.

Module CaseStudyResult.
Record t := mk {
  name : jstext;
  slug : jstext;
  url : jsstring;
  overview : jstext;
  category : jstext;
  useCase : jstext;
  impact : jstext;
  matched_snippet : option jsstring
}.
End CaseStudyResult.

(** A Contentful internal event page and an event card, [evt] in tool 5. *)
Module EventPage.
Record t := mk {
  heroTitle : jstext;
  metaDescription : jstext;
  url : jstext;
  eventDate : jstext;
  additionalEventDetails : option node;
  agenda : option node
}.
End EventPage.

Module EventCard.
Record t := mk {
  title : jstext;
  description : jstext;
  link : jstext;
  date : jstext
}.
End EventCard.

Module EventResult.
Record t := mk {
  type : jsstring;
  title : jstext;
  description : jstext;
  url : jstext;
  date : jstext;
  matched_snippet : option jsstring
}.
End EventResult.

(** [p.html ? stripHtml(p.html) : ""] *)
Definition bodyText (p : Ghost.t) : jsstring :=
  match Ghost.html p with
  | str ((_ :: _) as h) => stripHtml h
  | _ => []
  end.

(** [p.excerpt?.slice(0, 200)] *)
Definition excerpt_200 (excerpt : jstext) : jstext :=
  match excerpt with
  | str s => str (JS.slice s 0 200)
  | _ => undefined
  end.

(** [p.tags?.map((t) => t.name)] *)
Definition tag_names (tags : option (list Tag.t)) : option (list jstext) :=
  option_map (List.map Tag.name) tags.

(** ** Rendering of a snippet

    A snippet is a slice of the haystack with an optional marker on each
    side; the properties about ellipses are stated on these parts. *)
Record snippet_parts := {
  leading_ellipsis : bool;
  body : jsstring;
  trailing_ellipsis : bool
}.

Definition render (p : snippet_parts) : jsstring :=
  (if leading_ellipsis p then ellipsis else []) ++
  body p ++
  (if trailing_ellipsis p then ellipsis else []).

(** The units of [s] with index in [[a, b)], for [0 <= a] and [0 <= b]. *)
Definition substring (s : jsstring) (a b : Z) : jsstring :=
  firstn (Z.to_nat (b - a)) (skipn (Z.to_nat a) s).

Definition clamp (lo hi x : Z) : Z := Z.max lo (Z.min hi x).

(** ** Occurrences of a substring *)

(** [q] occurs in [s] at index [n]. *)
Definition occurs_at (s q : jsstring) (n : nat) : Prop :=
  exists pre post, s = pre ++ q ++ post /\ List.length pre = n.

(** [n] is the index of the first occurrence of [q] in [s]. *)
Definition first_occurrence (s q : jsstring) (n : nat) : Prop :=
  occurs_at s q n /\ forall m, occurs_at s q m -> (n <= m)%nat.

(** [q] occurs in [s] exactly once, at index [n]. *)
Definition only_occurrence (s q : jsstring) (n : nat) : Prop :=
  occurs_at s q n /\ forall m, occurs_at s q m -> m = n.

(** ** Leaves of a rich-text tree *)

(** The values of the text nodes, depth first, left to right. *)
Fixpoint leaf_values (n : node) : list jsstring :=
  match n with
  | absent => []
  | object nodeType value content =>
      if is_text nodeType then [or_empty value]
      else match content with
           | Some children => List.flat_map leaf_values children
           | None => []
           end
  end.

(** Every node is a text node or has a non-empty [content] sequence of
    such nodes. *)
Fixpoint populated (n : node) : bool :=
  match n with
  | absent => false
  | object nodeType value content =>
      if is_text nodeType then true
      else match content with
           | Some (c :: children) => populated c && forallb populated children
           | _ => false
           end
  end.

Definition text_node (s : string) : node :=
  object (str (lit "text")) (str (lit s)) None.

Definition container (kind : string) (children : list node) : node :=
  object (str (lit kind)) undefined (Some children).

(** ** Sample records *)

Definition nested_a_b : node :=
  container "document" [container "paragraph" [text_node "a"; text_node "b"]].

Definition gapped_a_b : node :=
  container "paragraph" [text_node "a"; container "paragraph" []; text_node "b"].

Definition renewable_post : Ghost.t :=
  {| Ghost.title := str (lit "Energy outlook");
     Ghost.slug := str (lit "energy-outlook");
     Ghost.excerpt := str (lit "We explore renewable energy trends");
     Ghost.html := str (lit "<p>Solar and wind keep growing.</p>");
     Ghost.published_at := str (lit "2024-01-01T00:00:00.000Z");
     Ghost.tags := Some [Tag.mk (str (lit "energy"))] |}.

Definition renewable_page : Ghost.t :=
  {| Ghost.title := str (lit "Renewable futures");
     Ghost.slug := str (lit "renewable-futures");
     Ghost.excerpt := undefined;
     Ghost.html := str (lit "<h1>About</h1><p>Who we are.</p>");
     Ghost.published_at := undefined;
     Ghost.tags := None |}.

Definition summit_event : EventPage.t :=
  {| EventPage.heroTitle := str (lit "Annual summit");
     EventPage.metaDescription := str (lit "Join us in Lisbon");
     EventPage.url := str (lit "annual-summit");
     EventPage.eventDate := str (lit "2025-05-01");
     EventPage.additionalEventDetails := None;
     EventPage.agenda :=
       Some (container "document"
               [container "paragraph"
                  [text_node "Keynote on"; text_node "Renewable energy"]]) |}.

Definition digits : jsstring := lit "0123456789".

Definition trends : jsstring := lit "We explore Renewable energy trends".

Definition ghost_records : list Ghost.t := [renewable_post; renewable_page].

(** A haystack of 453 units whose only [q] is at index 151. *)
Definition late_match : jsstring :=
  repeat 97%N 151 ++ lit "q" ++ repeat 97%N 301.

(** ** What the markup stripper leaves *)

(** Some [<] of [s] has a [>] after it, that is, the pattern [<[^>]*>]
    matches somewhere in [s]. *)
Fixpoint has_tag (s : jsstring) : bool :=
  match s with
  | [] => false
  | c :: rest =>
      (N.eqb c lt_sign && existsb (N.eqb gt_sign) rest) || has_tag rest
  end.

(** [l1] is [l2] with some of its elements deleted. *)
Inductive subsequence {A : Type} : list A -> list A -> Prop :=
| subsequence_nil : subsequence [] []
| subsequence_skip x l1 l2 : subsequence l1 l2 -> subsequence l1 (x :: l2)
| subsequence_keep x l1 l2 : subsequence l1 l2 -> subsequence (x :: l1) (x :: l2).

Definition space : code_unit := 32%N.

(** [s] with its spaces deleted. *)
Definition without_spaces (s : jsstring) : jsstring :=
  filter (fun c => negb (N.eqb c space)) s.

(** ** Pagination of the Ghost content API *)

(** What [fetchAllGhostRecords] reads of the body of a response:
    [records] is [json?.[dataKey]], [None] when it is missing or [null] and
    the array otherwise; [next] is [json.meta?.pagination?.next], a page
    number or nothing. *)
Module GhostResponse.
Record t (A : Type) := mk {
  records : option (list A);
  next : option Z
}.
Arguments mk {A} _ _.
Arguments records {A} _.
Arguments next {A} _.
End GhostResponse.

(** [!!next] on a number or [null]. *)
Definition truthy_number (n : option Z) : bool :=
  match n with
  | Some n => negb (n =? 0)
  | None => false
  end.

(** How a call of [fetchAllGhostRecords] ends: the promise is still
    pending when the fuel runs out, it rejects when a request fails, and it
    returns [all]; [requested] lists the page numbers of the requests
    made, in order. *)
Inductive outcome (A : Type) : Type :=
| pending
| rejected (requested : list Z)
| returned (requested : list Z) (all : list A).

Arguments pending {A}.
Arguments rejected {A} _.
Arguments returned {A} _ _.

(** The [while (hasMore)] loop of [fetchAllGhostRecords], src/index.ts
    lines 33-53, one iteration per unit of fuel.  [fetch page] is the body
    of the response to the request for [page] ([endpoint], [dataKey],
    [include] and the key are the same in every request), [None] when the
    request or the decoding of its body fails. *)
Fixpoint fetch_loop {A : Type} (fuel : nat)
    (fetch : Z -> option (GhostResponse.t A))
    (requested : list Z) (all : list A) (page : Z) : outcome A :=
  match fuel with
  | O => pending
  | S fuel =>
      let requested := requested ++ [page] in
      match fetch page with
      | None => rejected requested
      | Some json =>
          match GhostResponse.records json with
          | Some records =>
              let all := all ++ records in
              if truthy_number (GhostResponse.next json)
              then fetch_loop fuel fetch requested all (page + 1)
              else returned requested all
          | None => returned requested all
          end
      end
  end.

(** [fetchAllGhostRecords], src/index.ts lines 24-56. *)
Definition fetchAllGhostRecords {A : Type} (fuel : nat)
    (fetch : Z -> option (GhostResponse.t A)) : outcome A :=
  fetch_loop fuel fetch [] [] 1.

(** The loop goes on after this response. *)
Definition has_more {A : Type} (response : option (GhostResponse.t A)) : bool :=
  match response with
  | Some json =>
      match GhostResponse.records json with
      | Some _ => truthy_number (GhostResponse.next json)
      | None => false
      end
  | None => false
  end.

(** The records a response contributes. *)
Definition page_records {A : Type} (response : option (GhostResponse.t A))
    : list A :=
  match response with
  | Some json =>
      match GhostResponse.records json with
      | Some records => records
      | None => []
      end
  | None => []
  end.

(** The page numbers [1, ..., n]. *)
Definition pages_upto (n : nat) : list Z :=
  List.map Z.of_nat (seq 1 n).

(** A server with two pages of one record each. *)
Definition two_pages (page : Z) : option (GhostResponse.t Ghost.t) :=
  if page =? 1 then
    Some (GhostResponse.mk (Some [renewable_post]) (Some 2))
  else if page =? 2 then
    Some (GhostResponse.mk (Some [renewable_page]) None)
  else Some (GhostResponse.mk None None).

(** A server whose every page announces a next one. *)
Definition endless (page : Z) : option (GhostResponse.t Ghost.t) :=
  Some (GhostResponse.mk (Some [renewable_post]) (Some (page + 1))).

(** A server whose second request fails. *)
Definition failing_second (page : Z) : option (GhostResponse.t Ghost.t) :=
  if page =? 1 then
    Some (GhostResponse.mk (Some [renewable_post]) (Some 2))
  else None.

Definition comparison : jsstring := lit "if a < b and c > d then".

Definition summit_card : EventCard.t :=
  {| EventCard.title := str (lit "Renewable energy meetup");
     EventCard.description := null;
     EventCard.link := str (lit "https://example.com/meetup");
     EventCard.date := str (lit "2025-06-01") |}.

Definition solar_case_study : CaseStudy.t :=
  {| CaseStudy.name := str (lit "Helios");
     CaseStudy.slug := str (lit "helios");
     CaseStudy.externalLink := null;
     CaseStudy.overview := str (lit "A solar operator");
     CaseStudy.category := str (lit "Energy");
     CaseStudy.useCase := str (lit "Forecasting renewable output");
     CaseStudy.impact := null;
     CaseStudy.quoteText := null;
     CaseStudy.metaTitle := null;
     CaseStudy.metaDescription := null;
     CaseStudy.content :=
       Some (container "document"
               [container "paragraph" [text_node "Renewable sources"]]) |}.

Definition grid_learn_page : LearnPage.t :=
  {| LearnPage.title := str (lit "Grid basics");
     LearnPage.url := str (lit "grid-basics");
     LearnPage.section := None;
     LearnPage.subSection := null;
     LearnPage.metaTitle := null;
     LearnPage.metaDescription := str (lit "How renewable power reaches the grid");
     LearnPage.content := None |}.

Section Engine.

Variable toLowerCase : jsstring -> jsstring.

(** [matchesQuery], src/index.ts lines 62-65. *)
Definition matchesQuery (text : jstext) (query : jsstring) : bool :=
  match text with
  | undefined | null => false
  | str t =>
      if falsy text then false
      else JS.includes (toLowerCase t) (toLowerCase query)
  end.

(** The default value of the [contextChars] parameter. *)
Definition contextChars_default (c : option Z) : Z :=
  match c with
  | Some c => c
  | None => 150
  end.

(** [extractSnippet], src/index.ts lines 67-83.  The result [None] is the
    [null] of the source. *)
Definition extractSnippet (text : jstext) (query : jsstring)
    (contextChars : option Z) : option jsstring :=
  let contextChars := contextChars_default contextChars in
  match text with
  | undefined | null => None
  | str t =>
      if falsy text then None
      else
        let lower := toLowerCase t in
        let idx := JS.indexOf lower (toLowerCase query) in
        if idx =? -1 then None
        else
          let start := Z.max 0 (idx - contextChars) in
          let end_ := Z.min (JS.length t) (idx + JS.length query + contextChars) in
          let snippet := JS.slice t start end_ in
          let snippet := if start >? 0 then ellipsis ++ snippet else snippet in
          let snippet := if end_ <? JS.length t then snippet ++ ellipsis else snippet in
          Some snippet
  end.

(** [extractPlainTextSnippet], src/index.ts lines 96-112. *)
Definition extractPlainTextSnippet (text : jstext) (query : jsstring)
    (contextChars : option Z) : option jsstring :=
  let contextChars := contextChars_default contextChars in
  match text with
  | undefined | null => None
  | str t =>
      if falsy text then None
      else
        let lower := toLowerCase t in
        let idx := JS.indexOf lower (toLowerCase query) in
        if idx =? -1 then None
        else
          let start := Z.max 0 (idx - contextChars) in
          let end_ := Z.min (JS.length t) (idx + JS.length query + contextChars) in
          let snippet := JS.slice t start end_ in
          let snippet := if start >? 0 then ellipsis ++ snippet else snippet in
          let snippet := if end_ <? JS.length t then snippet ++ ellipsis else snippet in
          Some snippet
  end.

(** *** Tool 1, [search_blog_posts]: the [matches] computed from the
    fetched [posts], src/index.ts lines 148-168. *)
Definition post_filter (query : jsstring) (p : Ghost.t) : bool :=
  matchesQuery (Ghost.title p) query ||
  matchesQuery (Ghost.excerpt p) query ||
  matchesQuery (str (bodyText p)) query.

Definition post_result (query : jsstring) (p : Ghost.t) : PostResult.t :=
  {| PostResult.title := Ghost.title p;
     PostResult.slug := Ghost.slug p;
     PostResult.url := lit "/blog/" ++ interpolate (Ghost.slug p);
     PostResult.excerpt := excerpt_200 (Ghost.excerpt p);
     PostResult.published_at := Ghost.published_at p;
     PostResult.tags := tag_names (Ghost.tags p);
     PostResult.matched_snippet := extractSnippet (str (bodyText p)) query None |}.

Definition search_blog_posts (query : jsstring) (posts : list Ghost.t)
    : list PostResult.t :=
  List.map (post_result query) (List.filter (post_filter query) posts).

(** *** Tool 2, [search_blog_pages], src/index.ts lines 192-205. *)
Definition page_filter (query : jsstring) (p : Ghost.t) : bool :=
  matchesQuery (Ghost.title p) query ||
  matchesQuery (str (bodyText p)) query.

Definition page_result (query : jsstring) (p : Ghost.t) : PageResult.t :=
  {| PageResult.title := Ghost.title p;
     PageResult.slug := Ghost.slug p;
     PageResult.url := lit "/blog/" ++ interpolate (Ghost.slug p);
     PageResult.matched_snippet := extractSnippet (str (bodyText p)) query None |}.

Definition search_blog_pages (query : jsstring) (pages : list Ghost.t)
    : list PageResult.t :=
  List.map (page_result query) (List.filter (page_filter query) pages).

(** *** Tool 3, [search_learn_pages], src/index.ts lines 246-272. *)
Definition learn_page_bodyText (item : LearnPage.t) : jsstring :=
  extractTextFromRichText (json (LearnPage.content item)).

Definition learn_page_filter (query : jsstring) (item : LearnPage.t) : bool :=
  let bodyText := learn_page_bodyText item in
  matchesQuery (LearnPage.title item) query ||
  matchesQuery (LearnPage.metaTitle item) query ||
  matchesQuery (LearnPage.metaDescription item) query ||
  matchesQuery (str bodyText) query.

Definition learn_page_result (query : jsstring) (item : LearnPage.t)
    : LearnPageResult.t :=
  let bodyText := learn_page_bodyText item in
  {| LearnPageResult.title := LearnPage.title item;
     LearnPageResult.url :=
       match LearnPage.section item with
       | Some section =>
           lit "/learn/" ++ interpolate (LearnSection.url section) ++
           lit "/" ++ interpolate (LearnPage.url item)
       | None => lit "/learn/" ++ interpolate (LearnPage.url item)
       end;
     LearnPageResult.section :=
       match LearnPage.section item with
       | Some section => LearnSection.title section
       | None => undefined
       end;
     LearnPageResult.subSection := LearnPage.subSection item;
     LearnPageResult.metaDescription := LearnPage.metaDescription item;
     LearnPageResult.matched_snippet :=
       or_else (extractPlainTextSnippet (LearnPage.title item) query None)
      (or_else (extractPlainTextSnippet (LearnPage.metaTitle item) query None)
      (or_else (extractPlainTextSnippet (LearnPage.metaDescription item) query None)
               (extractPlainTextSnippet (str bodyText) query None))) |}.

Definition search_learn_pages (query : jsstring) (items : list LearnPage.t)
    : list LearnPageResult.t :=
  List.map (learn_page_result query) (List.filter (learn_page_filter query) items).

(** *** Tool 4, [search_case_studies], src/index.ts lines 315-349. *)
Definition case_study_bodyText (item : CaseStudy.t) : jsstring :=
  extractTextFromRichText (json (CaseStudy.content item)).

Definition case_study_filter (query : jsstring) (item : CaseStudy.t) : bool :=
  let bodyText := case_study_bodyText item in
  matchesQuery (CaseStudy.name item) query ||
  matchesQuery (CaseStudy.metaTitle item) query ||
  matchesQuery (CaseStudy.metaDescription item) query ||
  matchesQuery (CaseStudy.overview item) query ||
  matchesQuery (CaseStudy.quoteText item) query ||
  matchesQuery (CaseStudy.useCase item) query ||
  matchesQuery (CaseStudy.impact item) query ||
  matchesQuery (str bodyText) query.

Definition case_study_result (query : jsstring) (item : CaseStudy.t)
    : CaseStudyResult.t :=
  let bodyText := case_study_bodyText item in
  {| CaseStudyResult.name := CaseStudy.name item;
     CaseStudyResult.slug := CaseStudy.slug item;
     CaseStudyResult.url :=
       if falsy (CaseStudy.externalLink item)
       then lit "/case-studies/" ++ interpolate (CaseStudy.slug item)
       else interpolate (CaseStudy.externalLink item);
     CaseStudyResult.overview := CaseStudy.overview item;
     CaseStudyResult.category := CaseStudy.category item;
     CaseStudyResult.useCase := CaseStudy.useCase item;
     CaseStudyResult.impact := CaseStudy.impact item;
     CaseStudyResult.matched_snippet :=
       or_else (extractPlainTextSnippet (CaseStudy.name item) query None)
      (or_else (extractPlainTextSnippet (CaseStudy.metaTitle item) query None)
      (or_else (extractPlainTextSnippet (CaseStudy.metaDescription item) query None)
      (or_else (extractPlainTextSnippet (CaseStudy.overview item) query None)
      (or_else (extractPlainTextSnippet (CaseStudy.quoteText item) query None)
      (or_else (extractPlainTextSnippet (CaseStudy.useCase item) query None)
      (or_else (extractPlainTextSnippet (CaseStudy.impact item) query None)
               (extractPlainTextSnippet (str bodyText) query None))))))) |}.

Definition search_case_studies (query : jsstring) (items : list CaseStudy.t)
    : list CaseStudyResult.t :=
  List.map (case_study_result query) (List.filter (case_study_filter query) items).

(** *** Tool 5, [search_events], src/index.ts lines 399-443. *)
Definition detailsText (evt : EventPage.t) : jsstring :=
  extractTextFromRichText (json (EventPage.additionalEventDetails evt)).

Definition agendaText (evt : EventPage.t) : jsstring :=
  extractTextFromRichText (json (EventPage.agenda evt)).

Definition internal_filter (query : jsstring) (evt : EventPage.t) : bool :=
  matchesQuery (EventPage.heroTitle evt) query ||
  matchesQuery (EventPage.metaDescription evt) query ||
  matchesQuery (str (detailsText evt)) query ||
  matchesQuery (str (agendaText evt)) query.

Definition internal_result (query : jsstring) (evt : EventPage.t)
    : EventResult.t :=
  {| EventResult.type := lit "internal_event";
     EventResult.title := EventPage.heroTitle evt;
     EventResult.description := EventPage.metaDescription evt;
     EventResult.url := str (lit "/events/" ++ interpolate (EventPage.url evt));
     EventResult.date := EventPage.eventDate evt;
     EventResult.matched_snippet :=
       or_else (extractPlainTextSnippet (EventPage.heroTitle evt) query None)
      (or_else (extractPlainTextSnippet (EventPage.metaDescription evt) query None)
      (or_else (extractPlainTextSnippet (str (detailsText evt)) query None)
               (extractPlainTextSnippet (str (agendaText evt)) query None))) |}.

Definition card_filter (query : jsstring) (evt : EventCard.t) : bool :=
  matchesQuery (EventCard.title evt) query ||
  matchesQuery (EventCard.description evt) query.

Definition card_result (query : jsstring) (evt : EventCard.t) : EventResult.t :=
  {| EventResult.type := lit "event_card";
     EventResult.title := EventCard.title evt;
     EventResult.description := EventCard.description evt;
     EventResult.url := EventCard.link evt;
     EventResult.date := EventCard.date evt;
     EventResult.matched_snippet :=
       or_else (extractPlainTextSnippet (EventCard.title evt) query None)
               (extractPlainTextSnippet (EventCard.description evt) query None) |}.

Definition matchedInternal (query : jsstring) (internalEvents : list EventPage.t)
    : list EventResult.t :=
  List.map (internal_result query) (List.filter (internal_filter query) internalEvents).

Definition matchedCards (query : jsstring) (eventCards : list EventCard.t)
    : list EventResult.t :=
  List.map (card_result query) (List.filter (card_filter query) eventCards).

Definition search_events (query : jsstring)
    (internalEvents : list EventPage.t) (eventCards : list EventCard.t)
    : list EventResult.t :=
  matchedInternal query internalEvents ++ matchedCards query eventCards.

(** ** The contracts of the specification *)

(** Section 4.2: absent haystack, no match; otherwise lowercase
    containment. *)
Definition spec_matches (haystack : jstext) (query : jsstring) : bool :=
  match haystack with
  | undefined | null => false
  | str h => JS.includes (toLowerCase h) (toLowerCase query)
  end.

(** Section 4.3: the window around the occurrence at [idx], clamped to
    the haystack and sliced from the original haystack [h], with a marker
    on each side that was cut. *)
Definition spec_window (h : jsstring) (idx queryLength contextChars : Z)
    : snippet_parts :=
  let first := clamp 0 (JS.length h) (idx - contextChars) in
  let last := clamp 0 (JS.length h) (idx + queryLength + contextChars) in
  {| leading_ellipsis := 0 <? first;
     body := substring h first last;
     trailing_ellipsis := last <? JS.length h |}.

(** Section 4.4, step 2: a record is retained when at least one field of
    the field list matches. *)
Definition retained {R : Type} (fieldSpec : list (R -> jstext))
    (query : jsstring) (r : R) : bool :=
  existsb (fun field => matchesQuery (field r) query) fieldSpec.

(** Section 4.4, step 3: the first non-absent snippet in field order. *)
Fixpoint first_snippet {R : Type} (fieldSpec : list (R -> jstext))
    (query : jsstring) (r : R) : option jsstring :=
  match fieldSpec with
  | [] => None
  | field :: rest =>
      match extractSnippet (field r) query None with
      | Some s => Some s
      | None => first_snippet rest query r
      end
  end.

(** The field lists of section 4.4, in priority order. *)
Definition post_fields : list (Ghost.t -> jstext) :=
  [Ghost.title; Ghost.excerpt; fun p => str (bodyText p)].

Definition page_fields : list (Ghost.t -> jstext) :=
  [Ghost.title; fun p => str (bodyText p)].

Definition learn_page_fields : list (LearnPage.t -> jstext) :=
  [LearnPage.title; LearnPage.metaTitle; LearnPage.metaDescription;
   fun item => str (learn_page_bodyText item)].

Definition case_study_fields : list (CaseStudy.t -> jstext) :=
  [CaseStudy.name; CaseStudy.metaTitle; CaseStudy.metaDescription;
   CaseStudy.overview; CaseStudy.quoteText; CaseStudy.useCase;
   CaseStudy.impact; fun item => str (case_study_bodyText item)].

Definition event_page_fields : list (EventPage.t -> jstext) :=
  [EventPage.heroTitle; EventPage.metaDescription;
   fun evt => str (detailsText evt); fun evt => str (agendaText evt)].

Definition event_card_fields : list (EventCard.t -> jstext) :=
  [EventCard.title; EventCard.description].


(** ** The platform functions meet their descriptions *)

Lemma startsWith_occurs s q :
  JS.startsWith s q = true <-> occurs_at s q 0.
Proof.
  unfold occurs_at. revert s.
  induction q as [|y q IH]; intros s; simpl.
  - split; [intros _; exists [], s; auto | auto].
  - destruct s as [|x s].
    + split; [discriminate|].
      intros (pre & post & E & L). destruct pre; discriminate.
    + rewrite andb_true_iff, N.eqb_eq, IH. split.
      * intros (-> & pre & post & E & L).
        destruct pre; [|discriminate]. simpl in E. subst s.
        exists [], post. auto.
      * intros (pre & post & E & L).
        destruct pre; [|discriminate]. simpl in E. injection E as -> ->.
        split; [reflexivity|]. exists [], post. auto.
Qed.

Lemma occurs_at_cons c s q n :
  occurs_at (c :: s) q (S n) <-> occurs_at s q n.
Proof.
  unfold occurs_at. split.
  - intros (pre & post & E & L). destruct pre as [|c' pre]; [discriminate|].
    injection E as -> ->. injection L as L. exists pre, post. auto.
  - intros (pre & post & -> & L). exists (c :: pre), post.
    simpl. auto.
Qed.

Lemma occurs_at_nil q n : occurs_at [] q n -> n = 0%nat.
Proof.
  intros (pre & post & E & L). destruct pre; [auto | discriminate].
Qed.

Lemma occurs_at_length s q n :
  occurs_at s q n -> Z.of_nat n + JS.length q <= JS.length s.
Proof.
  intros (pre & post & -> & <-). unfold JS.length.
  rewrite !length_app. lia.
Qed.

Lemma includes_occurs s q :
  JS.includes s q = true <-> exists n, occurs_at s q n.
Proof.
  induction s as [|c s IH]; simpl; rewrite orb_true_iff, startsWith_occurs.
  - split.
    + intros [H|H]; [eauto | discriminate].
    + intros (n & H). left. now rewrite <- (occurs_at_nil _ _ H).
  - rewrite IH. split.
    + intros [H|(n & H)]; [eauto|]. exists (S n). now apply occurs_at_cons.
    + intros ([|n] & H); [auto|]. right. exists n. now apply occurs_at_cons in H.
Qed.

Lemma includes_app s q :
  JS.includes s q = true <-> exists pre post, s = pre ++ q ++ post.
Proof.
  rewrite includes_occurs. unfold occurs_at. split.
  - intros (n & pre & post & E & _). eauto.
  - intros (pre & post & E). eauto.
Qed.

Lemma indexOf_from_range s q k :
  JS.indexOf_from s q k = -1 \/ k <= JS.indexOf_from s q k.
Proof.
  revert k. induction s as [|c s IH]; intros k; simpl;
    destruct (JS.startsWith _ q); try lia.
  destruct (IH (k + 1)); lia.
Qed.

Lemma indexOf_from_first s q k n :
  0 <= k -> JS.indexOf_from s q k = k + Z.of_nat n -> first_occurrence s q n.
Proof.
  revert k n. induction s as [|c s IH]; intros k n Hk; simpl.
  - destruct (JS.startsWith [] q) eqn:E; [|lia].
    intros H. assert (n = 0%nat) as -> by lia.
    split; [now apply startsWith_occurs | intros; lia].
  - destruct (JS.startsWith (c :: s) q) eqn:E.
    + intros H. assert (n = 0%nat) as -> by lia.
      split; [now apply startsWith_occurs | intros; lia].
    + intros H. destruct (indexOf_from_range s q (k + 1)) as [R|R]; [lia|].
      destruct n as [|n]; [lia|].
      destruct (IH (k + 1) n) as [Ho Hm]; [lia | rewrite H; lia |].
      split; [now apply occurs_at_cons|].
      intros [|m] Hm'.
      * apply startsWith_occurs in Hm'. congruence.
      * apply occurs_at_cons in Hm'. apply Hm in Hm'. lia.
Qed.

Lemma indexOf_from_present s q k :
  0 <= k -> JS.includes s q = true ->
  exists n, JS.indexOf_from s q k = k + Z.of_nat n.
Proof.
  revert k. induction s as [|c s IH]; intros k Hk; simpl;
    destruct (JS.startsWith _ q); simpl; try discriminate;
    try (intros _; exists 0%nat; lia).
  intros H. destruct (IH (k + 1)) as (n & E); [lia | assumption |].
  exists (S n). rewrite E. lia.
Qed.

Lemma first_occurrence_unique s q n m :
  first_occurrence s q n -> first_occurrence s q m -> n = m.
Proof.
  intros [On Mn] [Om Mm]. apply Mn in Om. apply Mm in On. lia.
Qed.

(** [indexOf] returns the index of the first occurrence... *)
Lemma indexOf_first_occurrence s q n :
  JS.indexOf s q = Z.of_nat n <-> first_occurrence s q n.
Proof.
  unfold JS.indexOf. split.
  - intros H. apply (indexOf_from_first s q 0 n); lia.
  - intros H.
    destruct (indexOf_from_present s q 0) as (m & E); [lia | |].
    + apply includes_occurs. exists n. apply H.
    + rewrite E. simpl. f_equal.
      apply (first_occurrence_unique s q); [|assumption].
      apply (indexOf_from_first s q 0 m); lia.
Qed.

(** ... and [-1] exactly when there is none. *)
Lemma indexOf_includes s q :
  JS.includes s q = negb (JS.indexOf s q =? -1).
Proof.
  unfold JS.indexOf. destruct (JS.includes s q) eqn:E.
  - destruct (indexOf_from_present s q 0) as (n & H); [lia | assumption |].
    rewrite H. symmetry. apply negb_true_iff, Z.eqb_neq. lia.
  - destruct (JS.indexOf_from s q 0 =? -1) eqn:F; [reflexivity|].
    apply Z.eqb_neq in F.
    destruct (indexOf_from_range s q 0) as [R|R]; [contradiction|].
    assert (JS.indexOf_from s q 0
            = 0 + Z.of_nat (Z.to_nat (JS.indexOf_from s q 0))) as H by lia.
    apply indexOf_from_first in H; [|lia].
    assert (JS.includes s q = true) as G
        by (apply includes_occurs; eexists; apply H).
    congruence.
Qed.

Lemma indexOf_nonneg s q :
  JS.indexOf s q = -1 \/ 0 <= JS.indexOf s q.
Proof. apply indexOf_from_range. Qed.

Lemma indexOf_length s q :
  JS.indexOf s q <> -1 ->
  0 <= JS.indexOf s q /\ JS.indexOf s q + JS.length q <= JS.length s.
Proof.
  intros H. destruct (indexOf_nonneg s q) as [R|R]; [contradiction|].
  split; [assumption|].
  assert (JS.indexOf s q = Z.of_nat (Z.to_nat (JS.indexOf s q))) as E by lia.
  apply indexOf_first_occurrence in E. destruct E as [E _].
  apply occurs_at_length in E. lia.
Qed.

Lemma occurrences_from_spec s q k i :
  In i (JS.occurrences_from s q k) <->
  exists n, i = k + Z.of_nat n /\ occurs_at s q n.
Proof.
  revert k. induction s as [|c s IH]; intros k; simpl.
  - rewrite app_nil_r. destruct (JS.startsWith [] q) eqn:E; simpl.
    + apply startsWith_occurs in E. split.
      * intros [<-|[]]. exists 0%nat. split; [lia | assumption].
      * intros (n & -> & H). apply occurs_at_nil in H. subst n. left. lia.
    + split; [intros []|].
      intros (n & -> & H). pose proof (occurs_at_nil _ _ H). subst n.
      apply startsWith_occurs in H. congruence.
  - rewrite in_app_iff, IH. split.
    + intros [H|(n & -> & H)].
      * destruct (JS.startsWith (c :: s) q) eqn:E; [|destruct H].
        destruct H as [<-|[]]. exists 0%nat.
        split; [lia | now apply startsWith_occurs].
      * exists (S n). split; [lia | now apply occurs_at_cons].
    + intros ([|n] & -> & H).
      * left. apply startsWith_occurs in H. rewrite H. left. lia.
      * right. exists n. split; [lia | now apply occurs_at_cons in H].
Qed.

(** A haystack whose list of occurrences is a single index contains the
    query exactly once, there. *)
Lemma occurrences_only s q n :
  JS.occurrences s q = [Z.of_nat n] -> only_occurrence s q n.
Proof.
  unfold JS.occurrences. intros E. split.
  - assert (In (Z.of_nat n) (JS.occurrences_from s q 0)) as H
        by (rewrite E; now left).
    apply occurrences_from_spec in H. destruct H as (m & Hm & H).
    now replace n with m by lia.
  - intros m H.
    assert (In (Z.of_nat m) (JS.occurrences_from s q 0)) as G.
    { apply occurrences_from_spec. exists m. split; [lia | assumption]. }
    rewrite E in G. destruct G as [G|[]]. lia.
Qed.

Lemma only_occurrence_first s q n :
  only_occurrence s q n -> first_occurrence s q n.
Proof.
  intros [H U]. split; [assumption|]. intros m Hm. apply U in Hm. lia.
Qed.
(** ** The matcher *)

Lemma matchesQuery_falsy text query :
  falsy text = true -> matchesQuery text query = false.
Proof. destruct text as [| |[|c t]]; simpl; congruence. Qed.

Lemma matchesQuery_nonempty c t query :
  matchesQuery (str (c :: t)) query
  = JS.includes (toLowerCase (c :: t)) (toLowerCase query).
Proof. reflexivity. Qed.

(** C3 (as amended).  [matchesQuery] answers [false] when the haystack is
    [undefined], [null] or the empty string; for every other haystack it
    answers [true] exactly when the lowercase form of the haystack
    contains the lowercase form of the query as a contiguous substring.
    In particular a non-empty haystack matches every query whose
    lowercase form occurs in its lowercase form, the empty query
    included wherever lowercasing maps the empty string to itself. *)
Theorem matchesQuery_contract (h query : jsstring) :
  h <> [] ->
  matchesQuery undefined query = false /\
  matchesQuery null query = false /\
  matchesQuery (str []) query = false /\
  (matchesQuery (str h) query = true <->
   exists pre post, toLowerCase h = pre ++ toLowerCase query ++ post) /\
  (toLowerCase [] = [] -> matchesQuery (str h) [] = true).
Proof.
  intros Hh. destruct h as [|c t]; [contradiction|].
  repeat split; try reflexivity.
  - rewrite matchesQuery_nonempty. apply includes_app.
  - rewrite matchesQuery_nonempty. apply includes_app.
  - intros E. rewrite matchesQuery_nonempty, E.
    apply includes_app. exists [], (toLowerCase (c :: t)). reflexivity.
Qed.

(** ** The snippet extractors *)

Lemma slice_substring s a b :
  0 <= a -> 0 <= b ->
  JS.slice s a b = substring s (Z.min a (JS.length s)) (Z.min b (JS.length s)).
Proof.
  intros Ha Hb. unfold JS.slice, JS.relative_index, substring.
  destruct (Z.ltb_spec a 0); [lia|]. destruct (Z.ltb_spec b 0); [lia|].
  reflexivity.
Qed.

Lemma extractSnippet_falsy text query contextChars :
  falsy text = true -> extractSnippet text query contextChars = None.
Proof. destruct text as [| |[|c t]]; simpl; congruence. Qed.

Lemma extractSnippet_not_found c t query contextChars :
  JS.indexOf (toLowerCase (c :: t)) (toLowerCase query) = -1 ->
  extractSnippet (str (c :: t)) query contextChars = None.
Proof. intros E. unfold extractSnippet. simpl falsy. cbv iota. now rewrite E. Qed.

(** The shape of every snippet the extractor returns, in terms of the
    index found by the search. *)
Lemma extractSnippet_found h query contextChars :
  h <> [] -> 0 <= contextChars ->
  JS.indexOf (toLowerCase h) (toLowerCase query) <> -1 ->
  extractSnippet (str h) query (Some contextChars)
  = Some (render (spec_window h
                    (JS.indexOf (toLowerCase h) (toLowerCase query))
                    (JS.length query) contextChars)).
Proof.
  intros Hh Hc Hi. destruct h as [|c t]; [contradiction|].
  unfold extractSnippet. simpl falsy. cbv iota. simpl contextChars_default.
  destruct (indexOf_nonneg (toLowerCase (c :: t)) (toLowerCase query))
    as [R|R]; [contradiction|].
  set (idx := JS.indexOf (toLowerCase (c :: t)) (toLowerCase query)) in *.
  destruct (Z.eqb_spec idx (-1)); [contradiction|].
  assert (0 < JS.length (c :: t)) as Hlen by (unfold JS.length; simpl; lia).
  assert (0 <= JS.length query) as Hq by (unfold JS.length; lia).
  set (len := JS.length (c :: t)) in *.
  unfold spec_window, render, clamp. simpl. fold len.
  rewrite slice_substring by lia. fold len.
  replace (Z.min (Z.max 0 (idx - contextChars)) len)
    with (Z.max 0 (Z.min len (idx - contextChars))) by lia.
  replace (Z.min (Z.min len (idx + JS.length query + contextChars)) len)
    with (Z.max 0 (Z.min len (idx + JS.length query + contextChars))) by lia.
  replace (Z.max 0 (idx - contextChars) >? 0)
    with (0 <? Z.max 0 (Z.min len (idx - contextChars))).
  2:{ rewrite Z.gtb_ltb.
      destruct (Z.ltb_spec 0 (Z.max 0 (Z.min len (idx - contextChars))));
        destruct (Z.ltb_spec 0 (Z.max 0 (idx - contextChars))); lia. }
  replace (Z.min len (idx + JS.length query + contextChars) <? len)
    with (Z.max 0 (Z.min len (idx + JS.length query + contextChars)) <? len).
  2:{ f_equal. lia. }
  destruct (0 <? _); destruct (_ <? len); simpl;
    rewrite <- ?app_assoc, ?app_nil_r; reflexivity.
Qed.

Lemma extractSnippet_None text query contextChars :
  extractSnippet text query contextChars = None <->
  falsy text = true \/
  exists h, text = str h /\
            JS.indexOf (toLowerCase h) (toLowerCase query) = -1.
Proof.
  destruct text as [| |[|c t]]; simpl; try (split; auto; fail).
  destruct (Z.eqb_spec (JS.indexOf (toLowerCase (c :: t)) (toLowerCase query)) (-1))
    as [E|E].
  - split; [|reflexivity]. intros _. right. eauto.
  - split; [discriminate|].
    intros [F|(h & [= <-] & F)]; [discriminate | contradiction].
Qed.

Lemma matchesQuery_snippet text query contextChars :
  matchesQuery text query = true <->
  extractSnippet text query contextChars <> None.
Proof.
  destruct text as [| |[|c t]]; simpl;
    try (split; [discriminate | congruence]).
  rewrite indexOf_includes.
  destruct (JS.indexOf (toLowerCase (c :: t)) (toLowerCase query) =? -1);
    simpl; split; congruence.
Qed.

Lemma no_match_no_snippet text query contextChars :
  matchesQuery text query = false ->
  extractSnippet text query contextChars = None.
Proof.
  intros H. destruct (extractSnippet text query contextChars) eqn:E;
    [|reflexivity].
  assert (matchesQuery text query = true) as G
      by (apply (matchesQuery_snippet text query contextChars); congruence).
  congruence.
Qed.

Lemma match_has_snippet text query contextChars :
  matchesQuery text query = true ->
  exists s, extractSnippet text query contextChars = Some s.
Proof.
  intros H. apply (matchesQuery_snippet text query contextChars) in H.
  destruct (extractSnippet text query contextChars); [eauto | contradiction].
Qed.

(** C5.  For every haystack, present or absent, and every query,
    [matchesQuery] answers [true] exactly when [extractSnippet] returns a
    snippet: the containment test and the snippet test agree.  The same
    holds for [extractPlainTextSnippet] and for every context width. *)
Theorem matches_iff_snippet text query contextChars :
  (matchesQuery text query = true <->
   extractSnippet text query contextChars <> None) /\
  (matchesQuery text query = true <->
   extractPlainTextSnippet text query contextChars <> None).
Proof. split; apply matchesQuery_snippet. Qed.

(** C10.  [extractSnippet], used by the Ghost tools, and
    [extractPlainTextSnippet], used by the Contentful tools, return the
    same result for every haystack, query and context width, the omitted
    width included. *)
Theorem extractSnippet_extractPlainTextSnippet text query contextChars :
  extractSnippet text query contextChars
  = extractPlainTextSnippet text query contextChars.
Proof. reflexivity. Qed.

(** C4 (as amended).  For a non-empty haystack [h], a non-negative
    context width and a query whose lowercase form first occurs in the
    lowercase form of [h] at index [n], the extractor returns the slice
    of the original [h] over the window
    [[n - contextChars, n + len(query) + contextChars]] clamped to
    [[0, len(h)]], prefixed with the marker iff the clamped start is
    above 0 and suffixed with it iff the clamped end is below [len(h)].
    It returns no snippet iff the haystack is [undefined], [null] or
    empty, or the lowercase query does not occur in the lowercase
    haystack. *)
Theorem extractSnippet_contract text query contextChars :
  0 <= contextChars ->
  (forall h n,
      text = str h -> h <> [] ->
      first_occurrence (toLowerCase h) (toLowerCase query) n ->
      extractSnippet text query (Some contextChars)
      = Some (render (spec_window h (Z.of_nat n) (JS.length query)
                        contextChars))) /\
  (extractSnippet text query (Some contextChars) = None <->
   falsy text = true \/
   exists h, text = str h /\
             forall n, ~ occurs_at (toLowerCase h) (toLowerCase query) n).
Proof.
  intros Hc. split.
  - intros h n -> Hh Hn. apply indexOf_first_occurrence in Hn.
    rewrite extractSnippet_found by (try assumption; lia).
    now rewrite Hn.
  - rewrite extractSnippet_None. split.
    + intros [F|(h & -> & E)]; [now left|]. right. exists h.
      split; [reflexivity|]. intros n Hn.
      assert (JS.includes (toLowerCase h) (toLowerCase query) = true) as G
          by (apply includes_occurs; eauto).
      rewrite indexOf_includes, E in G. discriminate.
    + intros [F|(h & -> & E)]; [now left|]. right. exists h.
      split; [reflexivity|].
      destruct (JS.includes (toLowerCase h) (toLowerCase query)) eqn:G.
      * apply includes_occurs in G. destruct G as (n & G).
        now apply E in G.
      * rewrite indexOf_includes in G. apply negb_false_iff in G.
        now apply Z.eqb_eq.
Qed.

(** C2 (as amended).  When the lowercase query occurs in the lowercase
    haystack exactly once, at index [n], and
    [len(h) > n + len(query) + 300], the snippet is the slice of [h] from
    [max(0, n - 150)] to [n + len(query) + 150]; it has a leading
    ellipsis iff [n > 150] (none when [n <= 150]) and a trailing ellipsis
    iff [n + len(query) + 150 < len(h)], which the length bound makes
    true. *)
Theorem extractSnippet_single_occurrence h query n :
  only_occurrence (toLowerCase h) (toLowerCase query) n ->
  JS.length h > Z.of_nat n + JS.length query + 300 ->
  extractSnippet (str h) query None
  = Some (render
            {| leading_ellipsis := 150 <? Z.of_nat n;
               body := substring h (Z.max 0 (Z.of_nat n - 150))
                         (Z.of_nat n + JS.length query + 150);
               trailing_ellipsis :=
                 Z.of_nat n + JS.length query + 150 <? JS.length h |}) /\
  (Z.of_nat n + JS.length query + 150 <? JS.length h) = true.
Proof.
  intros Ho Hlen.
  assert (0 <= JS.length query) as Hq by (unfold JS.length; lia).
  assert (h <> []) as Hh.
  { intros ->. unfold JS.length in Hlen. simpl in Hlen. lia. }
  apply only_occurrence_first, indexOf_first_occurrence in Ho.
  split; [|apply Z.ltb_lt; lia].
  change (extractSnippet (str h) query None)
    with (extractSnippet (str h) query (Some 150)).
  rewrite extractSnippet_found by (try assumption; lia).
  rewrite Ho. unfold spec_window, clamp. do 2 f_equal.
  replace (Z.max 0 (Z.min (JS.length h) (Z.of_nat n - 150)))
    with (Z.max 0 (Z.of_nat n - 150)) by lia.
  replace (Z.max 0 (Z.min (JS.length h) (Z.of_nat n + JS.length query + 150)))
    with (Z.of_nat n + JS.length query + 150) by lia.
  f_equal.
  destruct (Z.ltb_spec 0 (Z.max 0 (Z.of_nat n - 150)));
    destruct (Z.ltb_spec 150 (Z.of_nat n)); try reflexivity; lia.
Qed.

(** ** The rich-text flattener *)

(** Induction over a document: the children of a node satisfy the
    property before the node does. *)
Lemma node_induction (P : node -> Prop) :
  P absent ->
  (forall nodeType value, P (object nodeType value None)) ->
  (forall nodeType value children,
      Forall P children -> P (object nodeType value (Some children))) ->
  forall n, P n.
Proof.
  intros Habsent Hleaf Hnode. fix IH 1. intros [|nodeType value [children|]].
  - exact Habsent.
  - apply Hnode. induction children as [|c children IHc]; constructor.
    + apply IH.
    + exact IHc.
  - apply Hleaf.
Qed.

(** C6.  The flattener meets its contract on every input: a text node
    yields its value, and the empty string when the value is missing; any
    other node with a content sequence yields the flattenings of its
    children, in order, joined by one space; a node of neither kind and
    absent input yield the empty string.  Consequently two text children
    [a] and [b] inside two levels of container nodes flatten to [a b]. *)
Theorem extractTextFromRichText_contract :
  (forall s content,
      extractTextFromRichText (object (str (lit "text")) (str s) content) = s) /\
  (forall content,
      extractTextFromRichText (object (str (lit "text")) undefined content) = [] /\
      extractTextFromRichText (object (str (lit "text")) null content) = []) /\
  (forall nodeType value children,
      is_text nodeType = false ->
      extractTextFromRichText (object nodeType value (Some children))
      = JS.join (lit " ") (List.map extractTextFromRichText children)) /\
  (forall nodeType value,
      is_text nodeType = false ->
      extractTextFromRichText (object nodeType value None) = []) /\
  extractTextFromRichText absent = [] /\
  (forall outer inner v1 v2,
      is_text outer = false -> is_text inner = false ->
      extractTextFromRichText
        (object outer v1
           (Some [object inner v2 (Some [text_node "a"; text_node "b"])]))
      = lit "a b") /\
  extractTextFromRichText nested_a_b = lit "a b".
Proof.
  repeat split; try reflexivity.
  - intros nodeType value children H. simpl. now rewrite H.
  - intros nodeType value H. simpl. now rewrite H.
  - intros outer inner v1 v2 Ho Hi. simpl. now rewrite Ho, Hi.
Qed.

Lemma join_cons sep p rest :
  rest <> [] -> JS.join sep (p :: rest) = p ++ sep ++ JS.join sep rest.
Proof. destruct rest; [contradiction | reflexivity]. Qed.

Lemma join_app sep l1 l2 :
  l1 <> [] -> l2 <> [] ->
  JS.join sep (l1 ++ l2) = JS.join sep l1 ++ sep ++ JS.join sep l2.
Proof.
  intros H1 H2. induction l1 as [|p l1 IH]; [contradiction|].
  destruct l1 as [|p' l1].
  - simpl app. now rewrite join_cons.
  - change ((p :: p' :: l1) ++ l2) with (p :: (p' :: l1) ++ l2).
    rewrite !join_cons by discriminate.
    rewrite IH by discriminate. now rewrite <- !app_assoc.
Qed.

Lemma join_concat sep (groups : list (list jsstring)) :
  Forall (fun g => g <> []) groups ->
  JS.join sep (List.map (JS.join sep) groups) = JS.join sep (List.concat groups).
Proof.
  induction 1 as [|g groups Hg Hall IH]; [reflexivity|].
  destruct groups as [|g' groups].
  - simpl. now rewrite app_nil_r.
  - change (List.map (JS.join sep) (g :: g' :: groups))
      with (JS.join sep g :: List.map (JS.join sep) (g' :: groups)).
    rewrite join_cons by discriminate. rewrite IH.
    change (List.concat (g :: g' :: groups)) with (g ++ List.concat (g' :: groups)).
    rewrite join_app; [reflexivity | assumption |].
    inversion Hall as [|? ? Hg' _]; subst.
    simpl. destruct g'; [contradiction | discriminate].
Qed.

Lemma populated_flatten n :
  populated n = true ->
  extractTextFromRichText n = JS.join (lit " ") (leaf_values n) /\
  leaf_values n <> [].
Proof.
  induction n as [|nodeType value|nodeType value children IH]
    using node_induction; simpl.
  - discriminate.
  - destruct (is_text nodeType); [|discriminate].
    intros _. split; [reflexivity | discriminate].
  - destruct (is_text nodeType); [intros _; split; [reflexivity | discriminate]|].
    destruct children as [|c children]; [discriminate|].
    change (populated c && forallb populated children)%bool
      with (forallb populated (c :: children)).
    intros Hp. rewrite forallb_forall in Hp. rewrite Forall_forall in IH.
    assert (Forall (fun g => g <> []) (List.map leaf_values (c :: children)))
      as Hne.
    { apply Forall_forall. intros g Hg. apply in_map_iff in Hg.
      destruct Hg as (x & <- & Hx). now apply IH; [|apply Hp]. }
    rewrite flat_map_concat_map. split.
    + rewrite <- join_concat by assumption. rewrite map_map. f_equal.
      apply map_ext_in. intros x Hx. now apply IH; [|apply Hp].
    + inversion Hne as [|? ? Hg _]; subst. simpl.
      destruct (leaf_values c); [contradiction | discriminate].
Qed.

(** C7 (as amended).  For every rich-text tree in which each node is a
    text node or has a non-empty content sequence of such nodes, the
    flattener's output is the depth-first sequence of the leaf text
    values joined with a single space. *)
Theorem extractTextFromRichText_leaves n :
  populated n = true ->
  extractTextFromRichText n = JS.join (lit " ") (leaf_values n).
Proof. intros H. now apply populated_flatten. Qed.

(** ** The record matchers *)

Lemma or_else_None a b : a = None -> or_else a b = b.
Proof. now intros ->. Qed.

Lemma filter_narrow {A : Type} (narrow wide : A -> bool) (l : list A) :
  (forall x, narrow x = true -> wide x = true) ->
  filter narrow l = filter narrow (filter wide l).
Proof.
  intros H. induction l as [|x l IH]; [reflexivity|]. simpl.
  destruct (narrow x) eqn:N.
  - rewrite (H x N). simpl. rewrite N. now f_equal.
  - destruct (wide x); simpl; [now rewrite N | assumption].
Qed.

Lemma retained_insert {R : Type} (before after : list (R -> jstext))
    (extra : R -> jstext) query r :
  retained (before ++ after) query r = true ->
  retained (before ++ extra :: after) query r = true.
Proof.
  unfold retained. rewrite !existsb_app. simpl.
  rewrite !orb_true_iff. intuition.
Qed.

(** The filters of the tools are the inclusion test at their field
    lists. *)
Lemma post_filter_retained query p :
  post_filter query p = retained post_fields query p.
Proof. unfold post_filter, retained. simpl. now rewrite orb_false_r, orb_assoc. Qed.

Lemma page_filter_retained query p :
  page_filter query p = retained page_fields query p.
Proof. unfold page_filter, retained. simpl. now rewrite orb_false_r. Qed.

Lemma learn_page_filter_retained query item :
  learn_page_filter query item = retained learn_page_fields query item.
Proof.
  unfold learn_page_filter, retained. simpl.
  now rewrite orb_false_r, <- !orb_assoc.
Qed.

Lemma case_study_filter_retained query item :
  case_study_filter query item = retained case_study_fields query item.
Proof.
  unfold case_study_filter, retained. simpl.
  now rewrite orb_false_r, <- !orb_assoc.
Qed.

Lemma internal_filter_retained query evt :
  internal_filter query evt = retained event_page_fields query evt.
Proof.
  unfold internal_filter, retained. simpl.
  now rewrite orb_false_r, <- !orb_assoc.
Qed.

(** C9.  Inclusion is monotonic in the field list.  With a record
    retained when [matchesQuery] holds for at least one field of the
    list, inserting a field anywhere in the list keeps every record that
    was retained: the records retained under the shorter list are those
    retained under the longer list that also pass the shorter test, in
    the same order.  In the code, the posts filter (title, excerpt,
    body) extends the pages filter (title, body) by the excerpt, and
    retains every record the pages filter retains. *)
Theorem inclusion_monotone (R : Type) (before after : list (R -> jstext))
    (extra : R -> jstext) (query : jsstring) (records : list R)
    (ghost : list Ghost.t) :
  (forall r,
      In r (filter (retained (before ++ after) query) records) ->
      In r (filter (retained (before ++ extra :: after) query) records)) /\
  filter (retained (before ++ after) query) records
  = filter (retained (before ++ after) query)
      (filter (retained (before ++ extra :: after) query) records) /\
  (forall p,
      In p (filter (page_filter query) ghost) ->
      In p (filter (post_filter query) ghost)) /\
  filter (page_filter query) ghost
  = filter (page_filter query) (filter (post_filter query) ghost).
Proof.
  split; [|split; [|split]].
  - intros r. rewrite !filter_In. intros [Hin Hr].
    split; [assumption | now apply retained_insert].
  - apply filter_narrow. intros r. apply retained_insert.
  - intros p. rewrite !filter_In. intros [Hin Hp]. split; [assumption|].
    rewrite post_filter_retained. rewrite page_filter_retained in Hp.
    exact (retained_insert [Ghost.title] [fun p => str (bodyText p)]
             Ghost.excerpt query p Hp).
  - apply filter_narrow. intros p Hp.
    rewrite post_filter_retained. rewrite page_filter_retained in Hp.
    exact (retained_insert [Ghost.title] [fun p => str (bodyText p)]
             Ghost.excerpt query p Hp).
Qed.

(** C8.  An event page whose query matches only the flattened agenda
    (hero title, meta description and additional details do not match)
    is retained by [search_events], and its [matched_snippet] is the
    snippet extracted from the flattened agenda text: the extractions
    from the hero title, the meta description and the details are
    absent, and the one from the agenda is a snippet. *)
Theorem search_events_agenda_only query evt internalEvents eventCards :
  In evt internalEvents ->
  matchesQuery (EventPage.heroTitle evt) query = false ->
  matchesQuery (EventPage.metaDescription evt) query = false ->
  matchesQuery (str (detailsText evt)) query = false ->
  matchesQuery (str (agendaText evt)) query = true ->
  In (internal_result query evt)
     (search_events query internalEvents eventCards) /\
  EventResult.matched_snippet (internal_result query evt)
  = extractPlainTextSnippet (str (agendaText evt)) query None /\
  extractPlainTextSnippet (EventPage.heroTitle evt) query None = None /\
  extractPlainTextSnippet (EventPage.metaDescription evt) query None = None /\
  exists s, EventResult.matched_snippet (internal_result query evt) = Some s.
Proof.
  intros Hin Ht Hd Hx Ha.
  assert (EventResult.matched_snippet (internal_result query evt)
          = extractPlainTextSnippet (str (agendaText evt)) query None) as E.
  { unfold internal_result. cbn [EventResult.matched_snippet].
    rewrite !or_else_None; try reflexivity;
      now apply no_match_no_snippet. }
  split; [|split; [exact E|split; [|split]]].
  - unfold search_events, matchedInternal. apply in_or_app. left.
    apply in_map, filter_In. split; [assumption|].
    unfold internal_filter. rewrite Ha. now rewrite !orb_true_r.
  - now apply no_match_no_snippet.
  - now apply no_match_no_snippet.
  - rewrite E. now apply match_has_snippet.
Qed.

(** The Contentful tools select the snippet by priority: the chain of
    [||] is the first non-absent snippet in field order. *)
Lemma extractSnippet_nonempty text query s :
  extractSnippet text query None = Some s -> s <> [].
Proof.
  destruct text as [| |[|c t]]; try discriminate.
  unfold extractSnippet. cbn [falsy contextChars_default].
  set (idx := JS.indexOf (toLowerCase (c :: t)) (toLowerCase query)).
  destruct (Z.eqb_spec idx (-1)) as [|Hi]; [discriminate|].
  destruct (indexOf_nonneg (toLowerCase (c :: t)) (toLowerCase query))
    as [R|R]; [contradiction|]. fold idx in R.
  assert (0 <= JS.length query) as Hq by (unfold JS.length; lia).
  assert (0 < JS.length (c :: t)) as Hlen by (unfold JS.length; simpl; lia).
  set (len := JS.length (c :: t)) in *.
  intros [= <-].
  destruct (Z.max 0 (idx - 150) >? 0) eqn:Hs.
  - destruct (_ <? len); discriminate.
  - assert (Z.max 0 (idx - 150) = 0) as ->
        by (rewrite Z.gtb_ltb in Hs; apply Z.ltb_ge in Hs; lia).
    assert (JS.slice (c :: t) 0
              (Z.min len (idx + JS.length query + 150)) <> []) as Hb.
    { rewrite slice_substring by lia. fold len. unfold substring.
      replace (Z.min 0 len) with 0 by lia. simpl skipn.
      destruct (Z.to_nat _) eqn:En; [lia | discriminate]. }
    destruct (_ <? len); [|assumption].
    intros F. apply app_eq_nil in F. now destruct F.
Qed.

Lemma or_else_snippet text query b :
  or_else (extractPlainTextSnippet text query None) b
  = match extractSnippet text query None with
    | Some s => Some s
    | None => b
    end.
Proof.
  change (extractPlainTextSnippet text query None)
    with (extractSnippet text query None).
  destruct (extractSnippet text query None) as [s|] eqn:E; [|reflexivity].
  apply extractSnippet_nonempty in E. destruct s; [contradiction | reflexivity].
Qed.

Lemma internal_snippet_priority query evt :
  EventResult.matched_snippet (internal_result query evt)
  = first_snippet event_page_fields query evt.
Proof.
  unfold internal_result, event_page_fields.
  cbn [EventResult.matched_snippet first_snippet].
  rewrite !or_else_snippet.
  change (extractPlainTextSnippet (str (agendaText evt)) query None)
    with (extractSnippet (str (agendaText evt)) query None).
  repeat destruct (extractSnippet _ query None); reflexivity.
Qed.

Lemma learn_page_snippet_priority query item :
  LearnPageResult.matched_snippet (learn_page_result query item)
  = first_snippet learn_page_fields query item.
Proof.
  unfold learn_page_result, learn_page_fields.
  cbn [LearnPageResult.matched_snippet first_snippet].
  rewrite !or_else_snippet.
  change (extractPlainTextSnippet (str (learn_page_bodyText item)) query None)
    with (extractSnippet (str (learn_page_bodyText item)) query None).
  repeat destruct (extractSnippet _ query None); reflexivity.
Qed.

Lemma case_study_snippet_priority query item :
  CaseStudyResult.matched_snippet (case_study_result query item)
  = first_snippet case_study_fields query item.
Proof.
  unfold case_study_result, case_study_fields.
  cbn [CaseStudyResult.matched_snippet first_snippet].
  rewrite !or_else_snippet.
  change (extractPlainTextSnippet (str (case_study_bodyText item)) query None)
    with (extractSnippet (str (case_study_bodyText item)) query None).
  repeat destruct (extractSnippet _ query None); reflexivity.
Qed.

(** The Ghost tools take the snippet from the body alone. *)
Lemma post_snippet_body query p :
  PostResult.matched_snippet (post_result query p)
  = extractSnippet (str (bodyText p)) query None.
Proof. reflexivity. Qed.

Lemma post_snippet_absent query p :
  matchesQuery (str (bodyText p)) query = false ->
  PostResult.matched_snippet (post_result query p) = None.
Proof. intros H. rewrite post_snippet_body. now apply no_match_no_snippet. Qed.

Lemma page_snippet_body query p :
  PageResult.matched_snippet (page_result query p)
  = extractSnippet (str (bodyText p)) query None.
Proof. reflexivity. Qed.


(** ** The markup stripper *)

Lemma stripHtml_from_In inTag s x :
  In x (stripHtml_from inTag s) -> In x s.
Proof.
  revert inTag. induction s as [|c rest IH]; intros inTag; simpl; [auto|].
  destruct inTag.
  - intros H. right. now apply IH in H.
  - destruct (N.eqb c lt_sign && existsb (N.eqb gt_sign) rest)%bool.
    + intros H. right. now apply IH in H.
    + intros [H|H]; [now left | right; now apply IH in H].
Qed.

Lemma stripHtml_from_no_gt inTag s :
  existsb (N.eqb gt_sign) s = false ->
  existsb (N.eqb gt_sign) (stripHtml_from inTag s) = false.
Proof.
  intros H.
  destruct (existsb (N.eqb gt_sign) (stripHtml_from inTag s)) eqn:E;
    [|reflexivity].
  apply existsb_exists in E. destruct E as (x & Hx & Ex).
  apply stripHtml_from_In in Hx.
  assert (existsb (N.eqb gt_sign) s = true) as G
      by (apply existsb_exists; eauto).
  congruence.
Qed.

Lemma stripHtml_from_tagless inTag s :
  has_tag (stripHtml_from inTag s) = false.
Proof.
  revert inTag. induction s as [|c rest IH]; intros inTag; simpl; [reflexivity|].
  destruct inTag; [apply IH|].
  destruct (N.eqb c lt_sign && existsb (N.eqb gt_sign) rest)%bool eqn:E;
    [apply IH|].
  simpl. rewrite IH, orb_false_r.
  destruct (N.eqb c lt_sign); [|reflexivity]. simpl in *.
  now apply stripHtml_from_no_gt.
Qed.

Lemma tagless_unchanged s :
  has_tag s = false -> stripHtml_from false s = s.
Proof.
  induction s as [|c rest IH]; simpl; [reflexivity|].
  intros H. apply orb_false_iff in H. destruct H as [H1 H2].
  rewrite H1. f_equal. now apply IH.
Qed.

(** X1.  [stripHtml] leaves no tag behind: in its result no [<] has a [>]
    after it, so the pattern matches nowhere, and stripping a second time
    changes nothing. *)
Theorem stripHtml_idempotent html :
  has_tag (stripHtml html) = false /\
  stripHtml (stripHtml html) = stripHtml html.
Proof.
  unfold stripHtml. split.
  - apply stripHtml_from_tagless.
  - apply tagless_unchanged, stripHtml_from_tagless.
Qed.

(** X2.  [stripHtml] returns its argument unchanged exactly when no [<] of
    it has a [>] after it; in particular text without [<], and text
    without [>], such as a lone unclosed [<], is kept verbatim. *)
Theorem stripHtml_unchanged html :
  (stripHtml html = html <-> has_tag html = false) /\
  (existsb (N.eqb lt_sign) html = false -> stripHtml html = html) /\
  (existsb (N.eqb gt_sign) html = false -> stripHtml html = html).
Proof.
  assert (forall s, existsb (N.eqb gt_sign) s = false -> has_tag s = false) as Hgt.
  { induction s as [|c rest IH]; cbn [existsb has_tag]; [reflexivity|].
    intros H. apply orb_false_iff in H. destruct H as [_ H].
    now rewrite H, IH, andb_false_r. }
  assert (forall s, existsb (N.eqb lt_sign) s = false -> has_tag s = false) as Hlt.
  { induction s as [|c rest IH]; cbn [existsb has_tag]; [reflexivity|].
    intros H. apply orb_false_iff in H. destruct H as [H1 H2].
    rewrite N.eqb_sym, H1. now apply IH. }
  unfold stripHtml. split; [split|split].
  - intros E. rewrite <- E. apply stripHtml_from_tagless.
  - apply tagless_unchanged.
  - intros H. now apply tagless_unchanged, Hlt.
  - intros H. now apply tagless_unchanged, Hgt.
Qed.

Lemma stripHtml_from_tag_body inTag_body rest :
  existsb (N.eqb gt_sign) inTag_body = false ->
  stripHtml_from true (inTag_body ++ gt_sign :: rest) = stripHtml_from false rest.
Proof.
  induction inTag_body as [|c t IH]; cbn [existsb stripHtml_from app];
    [now rewrite N.eqb_refl|].
  intros H. apply orb_false_iff in H. destruct H as [H1 H2].
  rewrite N.eqb_sym, H1. cbn [negb]. now apply IH.
Qed.

(** X3.  A span from a [<] to the next [>] is removed whatever it holds:
    when [before] has no [<] and [inside] has no [>], stripping
    [before < inside > after] gives [before] followed by what stripping
    [after] gives. *)
Theorem stripHtml_tag before inside after :
  existsb (N.eqb lt_sign) before = false ->
  existsb (N.eqb gt_sign) inside = false ->
  stripHtml (before ++ lt_sign :: inside ++ gt_sign :: after)
  = before ++ stripHtml after.
Proof.
  unfold stripHtml. intros Hb Hi.
  induction before as [|c before IH]; cbn [stripHtml_from app].
  - rewrite N.eqb_refl, existsb_app. cbn [existsb].
    rewrite N.eqb_refl, orb_true_r. cbn [andb orb].
    now apply stripHtml_from_tag_body.
  - cbn [existsb] in Hb. apply orb_false_iff in Hb. destruct Hb as [H1 H2].
    rewrite N.eqb_sym, H1. cbn [andb]. f_equal. now apply IH.
Qed.

(** X4.  [stripHtml] only deletes: its result is the argument with some
    units removed, in the same order, and so is never longer. *)
Theorem stripHtml_subsequence html :
  subsequence (stripHtml html) html /\
  JS.length (stripHtml html) <= JS.length html.
Proof.
  assert (forall inTag s, subsequence (stripHtml_from inTag s) s) as H.
  { intros inTag s. revert inTag.
    induction s as [|c rest IH]; intros inTag; simpl; [constructor|].
    destruct inTag; [constructor; apply IH|].
    destruct (N.eqb c lt_sign && existsb (N.eqb gt_sign) rest)%bool;
      constructor; apply IH. }
  split; [apply H|].
  assert (forall (l1 l2 : jsstring),
             subsequence l1 l2 -> (List.length l1 <= List.length l2)%nat) as L.
  { induction 1; simpl; lia. }
  unfold JS.length. specialize (L _ _ (H false html)).
  unfold stripHtml. lia.
Qed.

(** ** The flattener and spaces *)

Lemma without_spaces_app a b :
  without_spaces (a ++ b) = without_spaces a ++ without_spaces b.
Proof. apply filter_app. Qed.

Lemma without_spaces_join parts :
  without_spaces (JS.join (lit " ") parts)
  = List.concat (List.map without_spaces parts).
Proof.
  induction parts as [|p rest IH]; [reflexivity|].
  destruct rest as [|p' rest].
  - simpl. now rewrite app_nil_r.
  - change (JS.join (lit " ") (p :: p' :: rest))
      with (p ++ lit " " ++ JS.join (lit " ") (p' :: rest)).
    rewrite !without_spaces_app, IH. reflexivity.
Qed.

Lemma without_spaces_concat parts :
  without_spaces (List.concat parts)
  = List.concat (List.map without_spaces parts).
Proof.
  induction parts as [|p rest IH]; [reflexivity|].
  simpl. now rewrite without_spaces_app, IH.
Qed.

(** X5.  On every rich-text value, well formed or not, the flattener's
    output and the concatenation of the leaf text values, depth first,
    differ only in spaces: deleting the spaces from both gives the same
    string.  No text is lost, added or reordered. *)
Theorem extractTextFromRichText_text n :
  without_spaces (extractTextFromRichText n)
  = without_spaces (List.concat (leaf_values n)).
Proof.
  induction n as [|nodeType value|nodeType value children IH]
    using node_induction; simpl.
  - reflexivity.
  - destruct (is_text nodeType); simpl; now rewrite ?app_nil_r.
  - destruct (is_text nodeType); [simpl; now rewrite app_nil_r|].
    rewrite without_spaces_join, flat_map_concat_map.
    induction IH as [|c children Hc _ IHc]; [reflexivity|].
    simpl. rewrite concat_app, without_spaces_app, Hc. f_equal. exact IHc.
Qed.

(** ** Size and place of a snippet *)

Lemma substring_length_le s a b :
  JS.length (substring s a b) <= Z.max 0 (b - a).
Proof.
  unfold JS.length, substring. rewrite length_firstn. lia.
Qed.

Lemma substring_length s a b :
  0 <= a -> a <= b -> b <= JS.length s ->
  JS.length (substring s a b) = b - a.
Proof.
  unfold JS.length, substring. intros Ha Hab Hb.
  rewrite length_firstn, length_skipn. lia.
Qed.

Lemma firstn_plus {A : Type} (n m : nat) (l : list A) :
  firstn (n + m) l = firstn n l ++ firstn m (skipn n l).
Proof.
  revert l. induction n as [|n IH]; intros l; [reflexivity|].
  destruct l as [|x l]; simpl.
  - now rewrite firstn_nil.
  - now rewrite IH.
Qed.

Lemma substring_split s a b c :
  0 <= a -> a <= b -> b <= c ->
  substring s a c = substring s a b ++ substring s b c.
Proof.
  intros Ha Hab Hbc. unfold substring.
  replace (Z.to_nat (c - a)) with (Z.to_nat (b - a) + Z.to_nat (c - b))%nat
    by lia.
  rewrite firstn_plus, skipn_skipn.
  replace (Z.to_nat (b - a) + Z.to_nat a)%nat with (Z.to_nat b) by lia.
  reflexivity.
Qed.

Lemma render_length p :
  JS.length (render p) <= JS.length (body p) + 6.
Proof.
  unfold render, JS.length. rewrite !length_app.
  destruct (leading_ellipsis p); destruct (trailing_ellipsis p); simpl; lia.
Qed.

Lemma extractSnippet_Some text query contextChars s :
  extractSnippet text query contextChars = Some s ->
  exists h, text = str h /\ h <> [] /\
            JS.indexOf (toLowerCase h) (toLowerCase query) <> -1.
Proof.
  intros H. destruct text as [| |[|c t]]; try discriminate.
  exists (c :: t). split; [reflexivity|]. split; [discriminate|].
  intros E. now rewrite (extractSnippet_not_found c t query contextChars E) in H.
Qed.

(** X6.  A snippet is bounded in length: for a non-negative context width
    it has at most [len(query) + 2 * contextChars + 6] units, whatever the
    haystack; with the width 150 of the tools, [len(query) + 306]. *)
Theorem extractSnippet_length text query contextChars s :
  0 <= contextChars ->
  extractSnippet text query (Some contextChars) = Some s ->
  JS.length s <= JS.length query + 2 * contextChars + 6.
Proof.
  intros Hc H. destruct (extractSnippet_Some _ _ _ _ H) as (h & -> & Hh & Hi).
  rewrite extractSnippet_found in H by assumption. injection H as <-.
  assert (0 <= JS.length query) as Hq by (unfold JS.length; lia).
  assert (0 <= JS.length h) as Hl by (unfold JS.length; lia).
  etransitivity; [apply render_length|].
  unfold spec_window, clamp. cbn [body].
  etransitivity; [apply Z.add_le_mono_r, substring_length_le|]. lia.
Qed.

(** X7.  A short haystack comes back whole: when the haystack and its
    lowercase form have at most 150 units and the query matches, the
    snippet is the haystack itself, in its original case and without
    ellipsis. *)
Theorem extractSnippet_short_haystack h query :
  JS.length h <= 150 ->
  JS.length (toLowerCase h) <= 150 ->
  matchesQuery (str h) query = true ->
  extractSnippet (str h) query None = Some h.
Proof.
  intros Hh Hl Hm.
  destruct (match_has_snippet _ _ (Some 150) Hm) as (s & Hs).
  destruct (extractSnippet_Some _ _ _ _ Hs) as (h' & [= <-] & Hne & Hi).
  change (extractSnippet (str h) query None)
    with (extractSnippet (str h) query (Some 150)).
  rewrite extractSnippet_found by (try assumption; lia).
  destruct (indexOf_length _ _ Hi) as [H0 H1].
  assert (0 <= JS.length (toLowerCase query)) as Hq by (unfold JS.length; lia).
  assert (0 <= JS.length query) as Hq' by (unfold JS.length; lia).
  assert (0 <= JS.length h) as Hlen by (unfold JS.length; lia).
  unfold spec_window, clamp, render. cbn [leading_ellipsis body trailing_ellipsis].
  set (idx := JS.indexOf (toLowerCase h) (toLowerCase query)) in *.
  replace (Z.max 0 (Z.min (JS.length h) (idx - 150))) with 0 by lia.
  replace (Z.max 0 (Z.min (JS.length h) (idx + JS.length query + 150)))
    with (JS.length h) by lia.
  rewrite !Z.ltb_irrefl. cbn [app]. rewrite app_nil_r.
  unfold substring, JS.length. rewrite Z.sub_0_r, Nat2Z.id. simpl skipn.
  now rewrite firstn_all.
Qed.

Lemma indexOf_empty_query s : JS.indexOf s [] = 0.
Proof. destruct s; reflexivity. Qed.

(** X8.  The empty query, where lowercasing maps the empty string to
    itself, matches every non-empty text, and its snippet is the first 150
    units of the text, followed by an ellipsis when the text is longer. *)
Theorem empty_query_snippet h :
  toLowerCase [] = [] ->
  h <> [] ->
  matchesQuery (str h) [] = true /\
  extractSnippet (str h) [] None
  = Some (firstn 150 h ++ if 150 <? JS.length h then ellipsis else []).
Proof.
  intros E Hh.
  assert (JS.indexOf (toLowerCase h) (toLowerCase []) = 0) as Hi
      by (rewrite E; apply indexOf_empty_query).
  split.
  - destruct h as [|c t]; [contradiction|].
    rewrite matchesQuery_nonempty, indexOf_includes, Hi. reflexivity.
  - change (extractSnippet (str h) [] None)
      with (extractSnippet (str h) [] (Some 150)).
    rewrite extractSnippet_found by (try assumption; lia).
    rewrite Hi. unfold spec_window, clamp, render.
    cbn [leading_ellipsis body trailing_ellipsis].
    assert (0 <= JS.length h) as Hlen by (unfold JS.length; lia).
    change (JS.length []) with 0.
    replace (Z.max 0 (Z.min (JS.length h) (0 - 150))) with 0 by lia.
    rewrite Z.ltb_irrefl. cbn [app].
    replace (Z.max 0 (Z.min (JS.length h) (0 + 0 + 150)))
      with (Z.min (JS.length h) 150) by lia.
    f_equal. f_equal.
    + unfold substring. simpl skipn. rewrite Z.sub_0_r.
      destruct (Z.le_ge_cases (JS.length h) 150) as [L|L].
      * replace (Z.min (JS.length h) 150) with (JS.length h) by lia.
        unfold JS.length in *. rewrite Nat2Z.id, firstn_all.
        symmetry. apply firstn_all2. lia.
      * now replace (Z.min (JS.length h) 150) with 150 by lia.
    + destruct (Z.ltb_spec (Z.min (JS.length h) 150) (JS.length h));
        destruct (Z.ltb_spec 150 (JS.length h)); try reflexivity; lia.
Qed.

(** X9.  The snippet shows the matched span with bounded context.  For a
    non-empty haystack [h], a non-negative width and a first lowercase
    occurrence at index [n] whose span [n, n + len(query)) lies inside
    [h] (as it does when lowercasing keeps lengths), the snippet is: the
    ellipsis iff [n > contextChars]; the [min(n, contextChars)] units of
    [h] before index [n]; the [len(query)] units of [h] from index [n];
    the at most [contextChars] units after them; the ellipsis iff units
    remain. *)
Theorem extractSnippet_span h query contextChars n :
  h <> [] -> 0 <= contextChars ->
  first_occurrence (toLowerCase h) (toLowerCase query) n ->
  Z.of_nat n + JS.length query <= JS.length h ->
  let idx := Z.of_nat n in
  let stop := idx + JS.length query in
  let before := substring h (Z.max 0 (idx - contextChars)) idx in
  let matched := substring h idx stop in
  let after := substring h stop (Z.min (JS.length h) (stop + contextChars)) in
  extractSnippet (str h) query (Some contextChars)
  = Some ((if contextChars <? idx then ellipsis else []) ++
          before ++ matched ++ after ++
          (if stop + contextChars <? JS.length h then ellipsis else [])) /\
  JS.length before = Z.min idx contextChars /\
  JS.length matched = JS.length query /\
  JS.length after = Z.min contextChars (JS.length h - stop).
Proof.
  intros Hh Hc Hn Hin idx stop before matched after.
  assert (0 <= JS.length query) as Hq by (unfold JS.length; lia).
  apply indexOf_first_occurrence in Hn.
  split; [|split; [|split]].
  - rewrite extractSnippet_found by (try assumption; lia).
    rewrite Hn. fold idx. unfold spec_window, clamp, render.
    cbn [leading_ellipsis body trailing_ellipsis].
    replace (Z.max 0 (Z.min (JS.length h) (idx - contextChars)))
      with (Z.max 0 (idx - contextChars)) by lia.
    replace (Z.max 0 (Z.min (JS.length h) (idx + JS.length query + contextChars)))
      with (Z.min (JS.length h) (stop + contextChars)) by (unfold stop; lia).
    rewrite (substring_split h _ idx) by lia.
    rewrite (substring_split h idx stop) by (unfold stop; lia).
    fold before matched after. rewrite <- !app_assoc.
    f_equal. f_equal.
    + destruct (Z.ltb_spec 0 (Z.max 0 (idx - contextChars)));
        destruct (Z.ltb_spec contextChars idx); try reflexivity; lia.
    + do 3 f_equal.
      destruct (Z.ltb_spec (Z.min (JS.length h) (stop + contextChars)) (JS.length h));
        destruct (Z.ltb_spec (stop + contextChars) (JS.length h));
        try reflexivity; lia.
  - unfold before. rewrite substring_length by (unfold idx in *; lia). lia.
  - unfold matched. rewrite substring_length by (unfold stop, idx in *; lia).
    unfold stop. lia.
  - unfold after. rewrite substring_length by (unfold stop, idx in *; lia). lia.
Qed.

(** X10.  A query whose lowercase form is longer than the lowercase form
    of the haystack neither matches nor yields a snippet. *)
Theorem query_longer_than_haystack h query contextChars :
  JS.length (toLowerCase h) < JS.length (toLowerCase query) ->
  matchesQuery (str h) query = false /\
  extractSnippet (str h) query contextChars = None.
Proof.
  intros Hlen.
  assert (matchesQuery (str h) query = false) as Hm.
  { destruct h as [|c t]; [reflexivity|].
    rewrite matchesQuery_nonempty.
    destruct (JS.includes _ _) eqn:E; [|reflexivity].
    apply includes_occurs in E. destruct E as (n & E).
    apply occurs_at_length in E. lia. }
  split; [exact Hm | now apply no_match_no_snippet].
Qed.

(** ** Results of the tools *)

Lemma retained_first_snippet {R : Type} (fieldSpec : list (R -> jstext))
    query r :
  retained fieldSpec query r = true ->
  exists s, first_snippet fieldSpec query r = Some s /\ s <> [].
Proof.
  unfold retained. induction fieldSpec as [|field rest IH];
    cbn [existsb first_snippet]; [discriminate|].
  intros H. destruct (extractSnippet (field r) query None) as [s|] eqn:E.
  - exists s. split; [reflexivity|]. now apply extractSnippet_nonempty in E.
  - apply IH. destruct (matchesQuery (field r) query) eqn:M; [|exact H].
    apply (match_has_snippet _ _ None) in M. destruct M as (s & M). congruence.
Qed.

Lemma card_filter_retained query evt :
  card_filter query evt = retained event_card_fields query evt.
Proof. unfold card_filter, retained. simpl. now rewrite orb_false_r. Qed.

Lemma card_snippet_priority query evt :
  EventResult.matched_snippet (card_result query evt)
  = first_snippet event_card_fields query evt.
Proof.
  unfold card_result, event_card_fields.
  cbn [EventResult.matched_snippet first_snippet].
  rewrite !or_else_snippet.
  change (extractPlainTextSnippet (EventCard.description evt) query None)
    with (extractSnippet (EventCard.description evt) query None).
  repeat destruct (extractSnippet _ query None); reflexivity.
Qed.

Lemma in_map_filter {A B : Type} (f : A -> B) (keep : A -> bool) l y :
  In y (List.map f (filter keep l)) <->
  exists x, In x l /\ keep x = true /\ y = f x.
Proof.
  rewrite in_map_iff. split.
  - intros (x & <- & H). apply filter_In in H. destruct H. eauto.
  - intros (x & H & K & ->). exists x. split; [reflexivity|].
    apply filter_In. auto.
Qed.

(** X11.  Every result of [search_learn_pages] comes from a fetched page
    that passes the filter, and carries a snippet: [matched_snippet] is
    never [null] nor empty, and it is the first snippet found in the order
    title, metaTitle, metaDescription, body. *)
Theorem search_learn_pages_snippet query items res :
  In res (search_learn_pages query items) ->
  exists item s,
    In item items /\ res = learn_page_result query item /\
    LearnPageResult.matched_snippet res = Some s /\ s <> [] /\
    first_snippet learn_page_fields query item = Some s.
Proof.
  intros H. apply in_map_filter in H. destruct H as (item & Hin & Hk & ->).
  rewrite learn_page_filter_retained in Hk.
  destruct (retained_first_snippet _ _ _ Hk) as (s & Hs & Hne).
  exists item, s. rewrite learn_page_snippet_priority. auto.
Qed.

(** X12.  Every result of [search_case_studies] comes from a fetched case
    study that passes the filter, and carries a snippet: [matched_snippet]
    is never [null] nor empty, and it is the first snippet found in the
    order name, metaTitle, metaDescription, overview, quoteText, useCase,
    impact, body. *)
Theorem search_case_studies_snippet query items res :
  In res (search_case_studies query items) ->
  exists item s,
    In item items /\ res = case_study_result query item /\
    CaseStudyResult.matched_snippet res = Some s /\ s <> [] /\
    first_snippet case_study_fields query item = Some s.
Proof.
  intros H. apply in_map_filter in H. destruct H as (item & Hin & Hk & ->).
  rewrite case_study_filter_retained in Hk.
  destruct (retained_first_snippet _ _ _ Hk) as (s & Hs & Hne).
  exists item, s. rewrite case_study_snippet_priority. auto.
Qed.

(** X13.  Every result of [search_events] is the result of a fetched
    event page or of a fetched event card that passes its filter, and
    carries a snippet that is neither [null] nor empty: for a page the
    first found in the order heroTitle, metaDescription, details, agenda;
    for a card the first found in the order title, description. *)
Theorem search_events_snippet query internalEvents eventCards res :
  In res (search_events query internalEvents eventCards) ->
  exists s,
    EventResult.matched_snippet res = Some s /\ s <> [] /\
    ((exists evt, In evt internalEvents /\ res = internal_result query evt /\
                  first_snippet event_page_fields query evt = Some s) \/
     (exists evt, In evt eventCards /\ res = card_result query evt /\
                  first_snippet event_card_fields query evt = Some s)).
Proof.
  unfold search_events, matchedInternal, matchedCards. intros H.
  apply in_app_or in H. destruct H as [H|H];
    apply in_map_filter in H; destruct H as (evt & Hin & Hk & ->).
  - rewrite internal_filter_retained in Hk.
    destruct (retained_first_snippet _ _ _ Hk) as (s & Hs & Hne).
    exists s. rewrite internal_snippet_priority. eauto 8.
  - rewrite card_filter_retained in Hk.
    destruct (retained_first_snippet _ _ _ Hk) as (s & Hs & Hne).
    exists s. rewrite card_snippet_priority. eauto 8.
Qed.


Lemma map_filter_nil {A B : Type} (f : A -> B) (keep : A -> bool) l :
  List.map f (filter keep l) = [] <-> forall x, In x l -> keep x = false.
Proof.
  split.
  - intros H x Hx. destruct (keep x) eqn:K; [|reflexivity].
    assert (In (f x) (List.map f (filter keep l))) as G
        by (apply in_map_filter; eauto).
    rewrite H in G. destruct G.
  - intros H. induction l as [|x l IH]; [reflexivity|]. simpl.
    rewrite (H x) by (now left). apply IH. intros y Hy. apply H. now right.
Qed.

(** X15.  A tool returns the empty list exactly when no fetched record
    passes its filter, in particular when nothing was fetched; for
    [search_events], when no event page and no event card passes. *)
Theorem empty_results query :
  (forall posts, search_blog_posts query posts = [] <->
     forall p, In p posts -> post_filter query p = false) /\
  (forall pages, search_blog_pages query pages = [] <->
     forall p, In p pages -> page_filter query p = false) /\
  (forall items, search_learn_pages query items = [] <->
     forall item, In item items -> learn_page_filter query item = false) /\
  (forall items, search_case_studies query items = [] <->
     forall item, In item items -> case_study_filter query item = false) /\
  (forall internalEvents eventCards,
     search_events query internalEvents eventCards = [] <->
     (forall evt, In evt internalEvents -> internal_filter query evt = false) /\
     (forall evt, In evt eventCards -> card_filter query evt = false)).
Proof.
  split; [intros posts; apply map_filter_nil|].
  split; [intros pages; apply map_filter_nil|].
  split; [intros items; apply map_filter_nil|].
  split; [intros items; apply map_filter_nil|].
  intros internalEvents eventCards.
  unfold search_events, matchedInternal, matchedCards.
  rewrite <- (map_filter_nil (internal_result query)).
  rewrite <- (map_filter_nil (card_result query)).
  split.
  - intros H. now apply app_eq_nil in H.
  - intros [H1 H2]. now rewrite H1, H2.
Qed.


Lemma slice_prefix s n :
  0 <= n -> JS.slice s 0 n = firstn (Z.to_nat n) s.
Proof.
  intros Hn. rewrite slice_substring by lia. unfold substring.
  assert (0 <= JS.length s) as Hl by (unfold JS.length; lia).
  replace (Z.min 0 (JS.length s)) with 0 by lia. simpl skipn.
  rewrite Z.sub_0_r.
  destruct (Z.le_ge_cases n (JS.length s)) as [L|L].
  - now replace (Z.min n (JS.length s)) with n by lia.
  - replace (Z.min n (JS.length s)) with (JS.length s) by lia.
    unfold JS.length in *. rewrite Nat2Z.id, firstn_all.
    symmetry. apply firstn_all2. lia.
Qed.

(** X17.  The excerpt shown with a blog post result is the first 200
    units of the post's excerpt: the excerpt itself when it has at most
    200 units, and [undefined] when the post has no excerpt. *)
Theorem search_blog_posts_excerpt query posts res :
  In res (search_blog_posts query posts) ->
  exists p,
    In p posts /\ res = post_result query p /\
    match Ghost.excerpt p with
    | str s => PostResult.excerpt res = str (firstn 200 s) /\
               (JS.length s <= 200 -> PostResult.excerpt res = str s)
    | _ => PostResult.excerpt res = undefined
    end.
Proof.
  intros H. apply in_map_filter in H. destruct H as (p & Hin & _ & ->).
  exists p. split; [assumption|]. split; [reflexivity|].
  unfold post_result. cbn [PostResult.excerpt].
  destruct (Ghost.excerpt p) as [| |s]; try reflexivity.
  unfold excerpt_200. rewrite slice_prefix by lia.
  change (Z.to_nat 200) with 200%nat. split; [reflexivity|].
  intros Hs. f_equal. apply firstn_all2. unfold JS.length in Hs. lia.
Qed.

(** ** Pagination *)

Lemma fetch_loop_run {A : Type} (fetch : Z -> option (GhostResponse.t A))
    (m : nat) :
  forall (first fuel : nat) requested all,
    (forall k, (first <= k < first + m)%nat ->
               has_more (fetch (Z.of_nat k)) = true) ->
    has_more (fetch (Z.of_nat (first + m))) = false ->
    (m < fuel)%nat ->
    let pages := List.map Z.of_nat (seq first (S m)) in
    fetch_loop fuel fetch requested all (Z.of_nat first)
    = match fetch (Z.of_nat (first + m)) with
      | Some _ =>
          returned (requested ++ pages)
            (all ++ flat_map (fun page => page_records (fetch page)) pages)
      | None => rejected (requested ++ pages)
      end.
Proof.
  induction m as [|m IH]; intros first fuel requested all Hmore Hlast Hfuel;
    (destruct fuel as [|fuel]; [lia|]); cbn [fetch_loop].
  - rewrite Nat.add_0_r in *. cbn [seq List.map flat_map].
    unfold has_more, page_records in *.
    destruct (fetch (Z.of_nat first)) as [json|]; [|reflexivity].
    destruct (GhostResponse.records json) as [records|].
    + rewrite Hlast. now rewrite app_nil_r.
    + now rewrite !app_nil_r.
  - assert (has_more (fetch (Z.of_nat first)) = true) as H1
        by (apply Hmore; lia).
    replace (first + S m)%nat with (S first + m)%nat in * by lia.
    unfold has_more in H1.
    destruct (fetch (Z.of_nat first)) as [json|] eqn:F; [|discriminate].
    destruct (GhostResponse.records json) as [records|] eqn:R; [|discriminate].
    rewrite H1.
    replace (Z.of_nat first + 1) with (Z.of_nat (S first)) by lia.
    rewrite IH; [|intros k Hk; apply Hmore; lia|assumption|lia].
    change (seq first (S (S m))) with (first :: seq (S first) (S m)).
    cbn [List.map flat_map].
    assert (page_records (fetch (Z.of_nat first)) = records) as ->
        by (unfold page_records; now rewrite F, R).
    destruct (fetch (Z.of_nat (S first + m)));
      now rewrite <- !app_assoc.
Qed.

(** X18.  [fetchAllGhostRecords] returns once a response stops the loop.
    When the responses to pages [1] to [n - 1] have records and announce a
    next page, and the response to page [n] arrives but has no records or
    announces no next page, the call makes exactly the requests for pages
    [1, ..., n], in that order, and returns the records of these pages in
    that order; [n] iterations suffice. *)
Theorem fetchAllGhostRecords_returns {A : Type}
    (fetch : Z -> option (GhostResponse.t A)) (n fuel : nat) :
  (forall k, (1 <= k < n)%nat -> has_more (fetch (Z.of_nat k)) = true) ->
  has_more (fetch (Z.of_nat n)) = false ->
  fetch (Z.of_nat n) <> None ->
  (1 <= n <= fuel)%nat ->
  fetchAllGhostRecords fuel fetch
  = returned (pages_upto n)
      (flat_map (fun page => page_records (fetch page)) (pages_upto n)).
Proof.
  intros Hmore Hlast Hsome Hn. unfold fetchAllGhostRecords, pages_upto.
  destruct n as [|m]; [lia|].
  change 1 with (Z.of_nat 1).
  rewrite (fetch_loop_run fetch m 1 fuel [] []);
    [|intros k Hk; apply Hmore; lia|exact Hlast|lia].
  change (1 + m)%nat with (S m).
  destruct (fetch (Z.of_nat (S m))); [reflexivity | contradiction].
Qed.

(** X19.  A request that fails makes the whole call fail: when the
    responses to pages [1] to [n - 1] have records and announce a next
    page and the request for page [n] fails, the call rejects after the
    requests for pages [1, ..., n], and the records of the earlier pages
    are not returned. *)
Theorem fetchAllGhostRecords_rejects {A : Type}
    (fetch : Z -> option (GhostResponse.t A)) (n fuel : nat) :
  (forall k, (1 <= k < n)%nat -> has_more (fetch (Z.of_nat k)) = true) ->
  fetch (Z.of_nat n) = None ->
  (1 <= n <= fuel)%nat ->
  fetchAllGhostRecords fuel fetch = rejected (pages_upto n).
Proof.
  intros Hmore Hnone Hn. unfold fetchAllGhostRecords, pages_upto.
  destruct n as [|m]; [lia|].
  change 1 with (Z.of_nat 1).
  rewrite (fetch_loop_run fetch m 1 fuel [] []);
    [|intros k Hk; apply Hmore; lia| |lia].
  - change (1 + m)%nat with (S m). now rewrite Hnone.
  - change (1 + m)%nat with (S m). unfold has_more. now rewrite Hnone.
Qed.

(** X20.  The loop has no bound of its own: against a server whose every
    page has records and announces a next page, the call never returns,
    however many iterations it is given. *)
Theorem fetchAllGhostRecords_endless {A : Type}
    (fetch : Z -> option (GhostResponse.t A)) (fuel : nat) :
  (forall page, 1 <= page -> has_more (fetch page) = true) ->
  fetchAllGhostRecords fuel fetch = pending.
Proof.
  intros Hmore. unfold fetchAllGhostRecords.
  assert (forall requested all page,
             1 <= page -> fetch_loop fuel fetch requested all page = pending)
    as H; [|apply H; lia].
  induction fuel as [|fuel IH]; intros requested all page Hp;
    cbn [fetch_loop]; [reflexivity|].
  specialize (Hmore page Hp). unfold has_more in Hmore.
  destruct (fetch page) as [json|]; [|discriminate].
  destruct (GhostResponse.records json); [|discriminate].
  rewrite Hmore. apply IH. lia.
Qed.

End Engine.

(** ** The properties at concrete inputs

    The inputs below are Basic Latin strings, on which the platform's
    lowercasing is [JS.asciiToLowerCase]. *)

Lemma extractSnippet_single_occurrence_witness :
  only_occurrence (JS.asciiToLowerCase late_match)
    (JS.asciiToLowerCase (lit "q")) 151 /\
  JS.length late_match > Z.of_nat 151 + JS.length (lit "q") + 300 /\
  extractSnippet JS.asciiToLowerCase (str late_match) (lit "q") None
  = Some (ellipsis ++ repeat 97%N 150 ++ lit "q" ++ repeat 97%N 150 ++ ellipsis).
Proof.
  assert (only_occurrence (JS.asciiToLowerCase late_match)
            (JS.asciiToLowerCase (lit "q")) 151) as Ho
      by (apply occurrences_only; vm_compute; reflexivity).
  assert (JS.length late_match > Z.of_nat 151 + JS.length (lit "q") + 300) as Hl
      by (vm_compute; reflexivity).
  split; [exact Ho | split; [exact Hl|]].
  destruct (extractSnippet_single_occurrence JS.asciiToLowerCase
              late_match (lit "q") 151 Ho Hl) as [E _].
  rewrite E. vm_compute. reflexivity.
Defined.

(** The claim C2 as stated fails: a single occurrence at index 151 in a
    haystack of 453 units meets its hypotheses, and the snippet starts with
    an ellipsis. *)
Lemma extractSnippet_late_match_leading_ellipsis :
  only_occurrence (JS.asciiToLowerCase late_match)
    (JS.asciiToLowerCase (lit "q")) 151 /\
  JS.length late_match > 151 + JS.length (lit "q") + 300 /\
  exists s,
    extractSnippet JS.asciiToLowerCase (str late_match) (lit "q") None = Some s /\
    s = ellipsis ++ JS.slice late_match 1 302 ++ ellipsis /\
    JS.startsWith s ellipsis = true.
Proof.
  split; [apply occurrences_only; vm_compute; reflexivity|].
  split; [vm_compute; reflexivity|].
  eexists. split; [vm_compute; reflexivity|].
  split; vm_compute; reflexivity.
Qed.

Lemma matchesQuery_contract_witness :
  trends <> [] /\
  matchesQuery JS.asciiToLowerCase (str trends) (lit "RENEWABLE") = true /\
  matchesQuery JS.asciiToLowerCase (str trends) [] = true.
Proof.
  assert (trends <> []) as Hne by discriminate.
  destruct (matchesQuery_contract JS.asciiToLowerCase trends (lit "RENEWABLE") Hne)
    as (_ & _ & _ & Hiff & _).
  destruct (matchesQuery_contract JS.asciiToLowerCase trends [] Hne)
    as (_ & _ & _ & _ & Hempty).
  split; [exact Hne | split].
  - apply Hiff. exists (lit "we explore "), (lit " energy trends"). reflexivity.
  - apply Hempty. reflexivity.
Defined.

(** The claim C3 as stated fails: the empty string is a present haystack
    that contains the empty query, and [matchesQuery] answers [false]. *)
Lemma matchesQuery_empty_haystack :
  JS.includes (JS.asciiToLowerCase []) (JS.asciiToLowerCase []) = true /\
  spec_matches JS.asciiToLowerCase (str []) [] = true /\
  matchesQuery JS.asciiToLowerCase (str []) [] = false.
Proof. repeat split. Qed.

Lemma extractSnippet_contract_witness :
  0 <= 5 /\
  trends <> [] /\
  first_occurrence (JS.asciiToLowerCase trends)
    (JS.asciiToLowerCase (lit "renewable")) 11 /\
  extractSnippet JS.asciiToLowerCase (str trends) (lit "renewable") (Some 5)
  = Some (lit "...lore Renewable ener...").
Proof.
  assert (0 <= 5) as Hc by lia.
  assert (trends <> []) as Hne by discriminate.
  assert (first_occurrence (JS.asciiToLowerCase trends)
            (JS.asciiToLowerCase (lit "renewable")) 11) as Hf
      by (apply indexOf_first_occurrence; vm_compute; reflexivity).
  split; [exact Hc | split; [exact Hne | split; [exact Hf|]]].
  destruct (extractSnippet_contract JS.asciiToLowerCase (str trends)
              (lit "renewable") 5 Hc) as [Hw _].
  rewrite (Hw trends 11%nat eq_refl Hne Hf). vm_compute. reflexivity.
Defined.

(** The claim C4 as stated fails in two places.  The empty string is a
    present haystack in which the empty query is found at index 0, and the
    extractor returns no snippet.  With a negative context width the
    extractor does not return the slice over the clamped window: for
    [contextChars = -2] it returns seven digits between two ellipses,
    where the clamped window is empty. *)
Lemma extractSnippet_empty_haystack :
  (first_occurrence (JS.asciiToLowerCase []) (JS.asciiToLowerCase []) 0 /\
   extractSnippet JS.asciiToLowerCase (str []) [] (Some 150) = None) /\
  (first_occurrence (JS.asciiToLowerCase digits)
     (JS.asciiToLowerCase (lit "0")) 0 /\
   extractSnippet JS.asciiToLowerCase (str digits) (lit "0") (Some (-2))
   = Some (lit "...2345678...") /\
   render (spec_window digits 0 (JS.length (lit "0")) (-2)) = lit "......").
Proof.
  split; split.
  - apply indexOf_first_occurrence. reflexivity.
  - reflexivity.
  - apply indexOf_first_occurrence. reflexivity.
  - split; reflexivity.
Qed.

Lemma matches_iff_snippet_witness :
  extractSnippet JS.asciiToLowerCase (str trends) (lit "renewable") None
  <> None /\
  matchesQuery JS.asciiToLowerCase (str trends) (lit "renewable") = true.
Proof.
  assert (extractSnippet JS.asciiToLowerCase (str trends) (lit "renewable") None
          <> None) as H by (vm_compute; discriminate).
  split; [exact H|].
  destruct (matches_iff_snippet JS.asciiToLowerCase (str trends)
              (lit "renewable") None) as [[_ Hback] _].
  exact (Hback H).
Defined.

Lemma extractTextFromRichText_contract_witness :
  extractTextFromRichText
    (container "paragraph" [text_node "a"; text_node "b"])
  = JS.join (lit " ") [lit "a"; lit "b"].
Proof.
  destruct extractTextFromRichText_contract as (_ & _ & H & _).
  unfold container. rewrite H; reflexivity.
Defined.

Lemma extractTextFromRichText_leaves_witness :
  populated nested_a_b = true /\
  extractTextFromRichText nested_a_b = JS.join (lit " ") [lit "a"; lit "b"].
Proof.
  split; [reflexivity|].
  rewrite (extractTextFromRichText_leaves nested_a_b eq_refl). reflexivity.
Defined.

(** The claim C7 as stated fails: an empty container between the text
    nodes [a] and [b] puts two spaces between the two leaf values. *)
Lemma extractTextFromRichText_gap :
  leaf_values gapped_a_b = [lit "a"; lit "b"] /\
  extractTextFromRichText gapped_a_b = lit "a  b" /\
  extractTextFromRichText gapped_a_b
  <> JS.join (lit " ") (leaf_values gapped_a_b).
Proof. repeat split. discriminate. Qed.

Lemma search_events_agenda_only_witness :
  let query := lit "renewable" in
  In summit_event [summit_event] /\
  matchesQuery JS.asciiToLowerCase (EventPage.heroTitle summit_event) query = false /\
  matchesQuery JS.asciiToLowerCase (EventPage.metaDescription summit_event) query = false /\
  matchesQuery JS.asciiToLowerCase (str (detailsText summit_event)) query = false /\
  matchesQuery JS.asciiToLowerCase (str (agendaText summit_event)) query = true /\
  In (internal_result JS.asciiToLowerCase query summit_event)
     (search_events JS.asciiToLowerCase query [summit_event] []) /\
  EventResult.matched_snippet
    (internal_result JS.asciiToLowerCase query summit_event)
  = Some (lit "Keynote on Renewable energy").
Proof.
  intros query.
  assert (In summit_event [summit_event]) as Hin by (left; reflexivity).
  destruct (search_events_agenda_only JS.asciiToLowerCase query summit_event
              [summit_event] [] Hin eq_refl eq_refl eq_refl eq_refl)
    as (Hres & Hsnip & _).
  repeat (split; [first [exact Hin | reflexivity | exact Hres]|]).
  rewrite Hsnip. reflexivity.
Defined.

Lemma inclusion_monotone_witness :
  In renewable_page
     (filter (retained JS.asciiToLowerCase page_fields (lit "renewable"))
        ghost_records) /\
  In renewable_page
     (filter (retained JS.asciiToLowerCase post_fields (lit "renewable"))
        ghost_records) /\
  In renewable_page
     (filter (post_filter JS.asciiToLowerCase (lit "renewable")) ghost_records).
Proof.
  assert (In renewable_page
            (filter (retained JS.asciiToLowerCase page_fields (lit "renewable"))
               ghost_records)) as Hin by (vm_compute; left; reflexivity).
  destruct (inclusion_monotone JS.asciiToLowerCase Ghost.t
              [Ghost.title] [fun p => str (bodyText p)] Ghost.excerpt
              (lit "renewable") ghost_records ghost_records)
    as (Hgen & _ & Hcode & _).
  split; [exact Hin | split].
  - exact (Hgen renewable_page Hin).
  - apply Hcode. vm_compute. left. reflexivity.
Defined.

(** C1 (the code departs from the claim).  With the query [renewable], the
    post whose excerpt is [We explore renewable energy trends] and whose
    body does not contain the query is retained by [search_blog_posts],
    and its [matched_snippet] is [null]; taking the first non-absent
    snippet over (title, excerpt, body) gives the whole excerpt.  Likewise
    the page matching on its title alone is retained by
    [search_blog_pages] with a [null] snippet, where the priority selection
    gives the title. *)
Theorem search_blog_posts_excerpt_match :
  let query := lit "renewable" in
  post_filter JS.asciiToLowerCase query renewable_post = true /\
  matchesQuery JS.asciiToLowerCase (str (bodyText renewable_post)) query = false /\
  List.map PostResult.matched_snippet
    (search_blog_posts JS.asciiToLowerCase query [renewable_post]) = [None] /\
  first_snippet JS.asciiToLowerCase post_fields query renewable_post
  = Some (lit "We explore renewable energy trends") /\
  page_filter JS.asciiToLowerCase query renewable_page = true /\
  List.map PageResult.matched_snippet
    (search_blog_pages JS.asciiToLowerCase query [renewable_page]) = [None] /\
  first_snippet JS.asciiToLowerCase page_fields query renewable_page
  = Some (lit "Renewable futures").
Proof. repeat split. Qed.

(** ** Further properties at concrete inputs *)

Lemma stripHtml_unchanged_witness :
  existsb (N.eqb gt_sign) (lit "a < b") = false /\
  stripHtml (lit "a < b") = lit "a < b".
Proof.
  assert (existsb (N.eqb gt_sign) (lit "a < b") = false) as H by reflexivity.
  split; [exact H|].
  destruct (stripHtml_unchanged (lit "a < b")) as (_ & _ & Hgt).
  exact (Hgt H).
Defined.

Lemma stripHtml_tag_witness :
  existsb (N.eqb lt_sign) (lit "if a ") = false /\
  existsb (N.eqb gt_sign) (lit " b and c ") = false /\
  stripHtml comparison = lit "if a  d then".
Proof.
  assert (existsb (N.eqb lt_sign) (lit "if a ") = false) as Hb by reflexivity.
  assert (existsb (N.eqb gt_sign) (lit " b and c ") = false) as Hi by reflexivity.
  split; [exact Hb | split; [exact Hi|]].
  exact (eq_trans
           (stripHtml_tag (lit "if a ") (lit " b and c ") (lit " d then") Hb Hi)
           eq_refl).
Defined.

Lemma extractSnippet_length_witness :
  0 <= 150 /\
  exists s,
    extractSnippet JS.asciiToLowerCase (str late_match) (lit "q") (Some 150)
    = Some s /\
    JS.length s <= JS.length (lit "q") + 2 * 150 + 6.
Proof.
  assert (0 <= 150) as Hc by lia.
  split; [exact Hc|].
  destruct (extractSnippet JS.asciiToLowerCase (str late_match) (lit "q")
              (Some 150)) as [s|] eqn:E; [|vm_compute in E; discriminate E].
  exists s. split; [reflexivity|].
  exact (extractSnippet_length JS.asciiToLowerCase (str late_match) (lit "q")
           150 s Hc E).
Defined.

Lemma extractSnippet_short_haystack_witness :
  JS.length trends <= 150 /\
  JS.length (JS.asciiToLowerCase trends) <= 150 /\
  matchesQuery JS.asciiToLowerCase (str trends) (lit "renewable") = true /\
  extractSnippet JS.asciiToLowerCase (str trends) (lit "renewable") None
  = Some trends.
Proof.
  assert (JS.length trends <= 150) as H1 by (vm_compute; discriminate).
  assert (JS.length (JS.asciiToLowerCase trends) <= 150) as H2
      by (vm_compute; discriminate).
  assert (matchesQuery JS.asciiToLowerCase (str trends) (lit "renewable") = true)
    as H3 by reflexivity.
  split; [exact H1 | split; [exact H2 | split; [exact H3|]]].
  exact (extractSnippet_short_haystack JS.asciiToLowerCase trends
           (lit "renewable") H1 H2 H3).
Defined.

Lemma empty_query_snippet_witness :
  JS.asciiToLowerCase [] = [] /\
  late_match <> [] /\
  matchesQuery JS.asciiToLowerCase (str late_match) [] = true /\
  extractSnippet JS.asciiToLowerCase (str late_match) [] None
  = Some (repeat 97%N 150 ++ ellipsis).
Proof.
  assert (late_match <> []) as Hne by discriminate.
  destruct (empty_query_snippet JS.asciiToLowerCase late_match eq_refl Hne)
    as [Hm Hs].
  split; [reflexivity | split; [exact Hne | split; [exact Hm|]]].
  rewrite Hs. vm_compute. reflexivity.
Defined.

Lemma extractSnippet_span_witness :
  trends <> [] /\ 0 <= 5 /\
  first_occurrence (JS.asciiToLowerCase trends)
    (JS.asciiToLowerCase (lit "RENEWABLE")) 11 /\
  Z.of_nat 11 + JS.length (lit "RENEWABLE") <= JS.length trends /\
  extractSnippet JS.asciiToLowerCase (str trends) (lit "RENEWABLE") (Some 5)
  = Some (ellipsis ++ lit "lore " ++ lit "Renewable" ++ lit " ener" ++ ellipsis).
Proof.
  assert (trends <> []) as Hne by discriminate.
  assert (0 <= 5) as Hc by lia.
  assert (first_occurrence (JS.asciiToLowerCase trends)
            (JS.asciiToLowerCase (lit "RENEWABLE")) 11) as Hf
      by (apply indexOf_first_occurrence; vm_compute; reflexivity).
  assert (Z.of_nat 11 + JS.length (lit "RENEWABLE") <= JS.length trends) as Hin
      by (vm_compute; discriminate).
  split; [exact Hne | split; [exact Hc | split; [exact Hf | split; [exact Hin|]]]].
  destruct (extractSnippet_span JS.asciiToLowerCase trends (lit "RENEWABLE")
              5 11 Hne Hc Hf Hin) as [E _].
  rewrite E. vm_compute. reflexivity.
Defined.

Lemma query_longer_than_haystack_witness :
  JS.length (JS.asciiToLowerCase (lit "sun"))
  < JS.length (JS.asciiToLowerCase (lit "renewable")) /\
  matchesQuery JS.asciiToLowerCase (str (lit "sun")) (lit "renewable") = false /\
  extractSnippet JS.asciiToLowerCase (str (lit "sun")) (lit "renewable") None
  = None.
Proof.
  assert (JS.length (JS.asciiToLowerCase (lit "sun"))
          < JS.length (JS.asciiToLowerCase (lit "renewable"))) as H
      by (vm_compute; reflexivity).
  split; [exact H|].
  exact (query_longer_than_haystack JS.asciiToLowerCase (lit "sun")
           (lit "renewable") None H).
Defined.

Lemma search_learn_pages_snippet_witness :
  let query := lit "renewable" in
  let res := learn_page_result JS.asciiToLowerCase query grid_learn_page in
  In res (search_learn_pages JS.asciiToLowerCase query [grid_learn_page]) /\
  exists s, LearnPageResult.matched_snippet res = Some s /\ s <> [].
Proof.
  intros query res.
  assert (In res (search_learn_pages JS.asciiToLowerCase query [grid_learn_page]))
    as Hin by (left; reflexivity).
  split; [exact Hin|].
  destruct (search_learn_pages_snippet JS.asciiToLowerCase query
              [grid_learn_page] res Hin) as (item & s & _ & _ & Hs & Hne & _).
  exists s. split; [exact Hs | exact Hne].
Defined.

Lemma search_case_studies_snippet_witness :
  let query := lit "renewable" in
  let res := case_study_result JS.asciiToLowerCase query solar_case_study in
  In res (search_case_studies JS.asciiToLowerCase query [solar_case_study]) /\
  exists s, CaseStudyResult.matched_snippet res = Some s /\ s <> [].
Proof.
  intros query res.
  assert (In res (search_case_studies JS.asciiToLowerCase query [solar_case_study]))
    as Hin by (left; reflexivity).
  split; [exact Hin|].
  destruct (search_case_studies_snippet JS.asciiToLowerCase query
              [solar_case_study] res Hin) as (item & s & _ & _ & Hs & Hne & _).
  exists s. split; [exact Hs | exact Hne].
Defined.

Lemma search_events_snippet_witness :
  let query := lit "renewable" in
  let res := card_result JS.asciiToLowerCase query summit_card in
  In res (search_events JS.asciiToLowerCase query [summit_event] [summit_card]) /\
  exists s, EventResult.matched_snippet res = Some s /\ s <> [].
Proof.
  intros query res.
  assert (In res (search_events JS.asciiToLowerCase query
                    [summit_event] [summit_card])) as Hin
      by (right; left; reflexivity).
  split; [exact Hin|].
  destruct (search_events_snippet JS.asciiToLowerCase query
              [summit_event] [summit_card] res Hin) as (s & Hs & Hne & _).
  exists s. split; [exact Hs | exact Hne].
Defined.


Lemma empty_results_witness :
  (forall p, In p ghost_records ->
             post_filter JS.asciiToLowerCase (lit "zebra") p = false) /\
  search_blog_posts JS.asciiToLowerCase (lit "zebra") ghost_records = [].
Proof.
  assert (forall p, In p ghost_records ->
                    post_filter JS.asciiToLowerCase (lit "zebra") p = false) as H.
  { intros p [<-|[<-|[]]]; reflexivity. }
  split; [exact H|].
  destruct (empty_results JS.asciiToLowerCase (lit "zebra")) as (Hposts & _).
  apply (Hposts ghost_records). exact H.
Defined.

Lemma search_blog_posts_excerpt_witness :
  let query := lit "renewable" in
  let res := post_result JS.asciiToLowerCase query renewable_post in
  In res (search_blog_posts JS.asciiToLowerCase query [renewable_post]) /\
  exists p, In p [renewable_post] /\
            res = post_result JS.asciiToLowerCase query p.
Proof.
  intros query res.
  assert (In res (search_blog_posts JS.asciiToLowerCase query [renewable_post]))
    as Hin by (left; reflexivity).
  split; [exact Hin|].
  destruct (search_blog_posts_excerpt JS.asciiToLowerCase query
              [renewable_post] res Hin) as (p & Hp & Hres & _).
  exists p. split; [exact Hp | exact Hres].
Defined.

Lemma fetchAllGhostRecords_returns_witness :
  (forall k, (1 <= k < 2)%nat -> has_more (two_pages (Z.of_nat k)) = true) /\
  has_more (two_pages (Z.of_nat 2)) = false /\
  two_pages (Z.of_nat 2) <> None /\
  (1 <= 2 <= 5)%nat /\
  fetchAllGhostRecords 5 two_pages
  = returned [1; 2] [renewable_post; renewable_page].
Proof.
  assert (forall k, (1 <= k < 2)%nat -> has_more (two_pages (Z.of_nat k)) = true)
    as Hmore.
  { intros k Hk. assert (k = 1%nat) as -> by lia. reflexivity. }
  assert (has_more (two_pages (Z.of_nat 2)) = false) as Hlast by reflexivity.
  assert (two_pages (Z.of_nat 2) <> None) as Hsome by discriminate.
  assert (1 <= 2 <= 5)%nat as Hn by lia.
  split; [exact Hmore | split; [exact Hlast | split; [exact Hsome |
    split; [exact Hn|]]]].
  rewrite (fetchAllGhostRecords_returns two_pages 2 5 Hmore Hlast Hsome Hn).
  reflexivity.
Defined.

Lemma fetchAllGhostRecords_rejects_witness :
  (forall k, (1 <= k < 2)%nat ->
             has_more (failing_second (Z.of_nat k)) = true) /\
  failing_second (Z.of_nat 2) = None /\
  (1 <= 2 <= 5)%nat /\
  fetchAllGhostRecords 5 failing_second = rejected [1; 2].
Proof.
  assert (forall k, (1 <= k < 2)%nat ->
                    has_more (failing_second (Z.of_nat k)) = true) as Hmore.
  { intros k Hk. assert (k = 1%nat) as -> by lia. reflexivity. }
  assert (1 <= 2 <= 5)%nat as Hn by lia.
  split; [exact Hmore | split; [reflexivity | split; [exact Hn|]]].
  exact (fetchAllGhostRecords_rejects failing_second 2 5 Hmore eq_refl Hn).
Defined.

Lemma fetchAllGhostRecords_endless_witness :
  (forall page, 1 <= page -> has_more (endless page) = true) /\
  fetchAllGhostRecords 1000 endless = pending.
Proof.
  assert (forall page, 1 <= page -> has_more (endless page) = true) as H.
  { intros page Hp. unfold endless, has_more. cbn.
    apply negb_true_iff, Z.eqb_neq. lia. }
  split; [exact H|].
  exact (fetchAllGhostRecords_endless endless 1000 H).
Defined.
